(** * Call-history reconciliation (callDisposition)

    A shallow embedding of the call-history status reconciliation engine:
    [transitionCallHistory], its three per-mode status machines, the
    timestamp merge policy [transitionTimestamp], the outbound-sync gate
    ([statusToProto], [shouldSyncStatus], [updateRemoteCallHistory]) and
    [updateLocalGroupCallHistoryTimestamp].

    Conventions.
    - JavaScript strings are [string]; [null] is [None].
    - Timestamps are epoch milliseconds, modelled as [Z]; [Math.max] is
      [Z.max].
    - A thrown exception is an [Err] result; [strictAssert] throws an
      [AssertionError] carrying its message.
    - [log.info] / [log.error] calls only write to the log; the actions
      below record the error logs, the pure functions drop them. *)

From Stdlib Require Import ZArith.
From Stdlib.Strings Require Import Byte.
From stdpp Require Import base decidable option numbers strings gmap.

Open Scope string_scope.
Open Scope Z_scope.

(** ** Enumerations *)

(** Modelled from the spec: [CallMode] is declared in types/Calling, which
    is not part of the sources.  The dispatch of [transitionCallHistory]
    is exhaustive over exactly these three members. *)
Module CallMode.
Inductive t := Direct | Group | Adhoc.
End CallMode.

(** Modelled from the spec: the enumerations of types/CallDisposition
    ([CallType], [CallDirection], [LocalCallEvent], [RemoteCallEvent],
    [CallStatusValue] and the three mode-specific status enumerations)
    are not part of the sources.  Their members are the ones the source
    names; local and remote events are distinct values. *)
Module CallType.
Inductive t := Audio | Video | Group | Adhoc.
End CallType.

Module CallDirection.
Inductive t := Incoming | Outgoing.
End CallDirection.

Module LocalCallEvent.
Inductive t :=
| Started | Ringing | Accepted | Declined
| Hangup | RemoteHangup | Missed | Delete.
End LocalCallEvent.

Module RemoteCallEvent.
Inductive t := Accepted | NotAccepted | Delete.
End RemoteCallEvent.

(** [type CallEvent = LocalCallEvent | RemoteCallEvent] *)
Inductive CallEvent :=
| Local (e : LocalCallEvent.t)
| Remote (e : RemoteCallEvent.t).

(** The keys of the [statusToProto] table: every value a [status] field
    can hold at run time. *)
Module CallStatusValue.
Inductive t :=
| Pending | Accepted | Missed | Declined | Deleted
| GenericGroupCall | OutgoingRing | Ringing | Joined | JoinedAdhoc.
End CallStatusValue.

(** [type CallStatus = DirectCallStatus | GroupCallStatus | AdhocCallStatus].
    The mode-specific enumerations alias members of [CallStatusValue]; the
    casts [prevStatus as DirectCallStatus | null] of the source are not
    checked at run time, so every transition function receives a
    [CallStatus]. *)
Abbreviation CallStatus := CallStatusValue.t.

Module DirectCallStatus.
Definition Pending : CallStatus := CallStatusValue.Pending.
Definition Accepted : CallStatus := CallStatusValue.Accepted.
Definition Missed : CallStatus := CallStatusValue.Missed.
Definition Declined : CallStatus := CallStatusValue.Declined.
Definition Deleted : CallStatus := CallStatusValue.Deleted.
End DirectCallStatus.

Module GroupCallStatus.
Definition GenericGroupCall : CallStatus := CallStatusValue.GenericGroupCall.
Definition OutgoingRing : CallStatus := CallStatusValue.OutgoingRing.
Definition Ringing : CallStatus := CallStatusValue.Ringing.
Definition Joined : CallStatus := CallStatusValue.Joined.
Definition Accepted : CallStatus := CallStatusValue.Accepted.
Definition Missed : CallStatus := CallStatusValue.Missed.
Definition Declined : CallStatus := CallStatusValue.Declined.
Definition Deleted : CallStatus := CallStatusValue.Deleted.
End GroupCallStatus.

Module AdhocCallStatus.
Definition Pending : CallStatus := CallStatusValue.Pending.
Definition Joined : CallStatus := CallStatusValue.JoinedAdhoc.
Definition Deleted : CallStatus := CallStatusValue.Deleted.
End AdhocCallStatus.

(** Decidable equality, the [===] of the source on enumeration values. *)
#[global] Instance CallMode_eq_dec : EqDecision CallMode.t.
Proof. solve_decision. Defined.
#[global] Instance CallType_eq_dec : EqDecision CallType.t.
Proof. solve_decision. Defined.
#[global] Instance CallDirection_eq_dec : EqDecision CallDirection.t.
Proof. solve_decision. Defined.
#[global] Instance LocalCallEvent_eq_dec : EqDecision LocalCallEvent.t.
Proof. solve_decision. Defined.
#[global] Instance RemoteCallEvent_eq_dec : EqDecision RemoteCallEvent.t.
Proof. solve_decision. Defined.
#[global] Instance CallEvent_eq_dec : EqDecision CallEvent.
Proof. solve_decision. Defined.
#[global] Instance CallStatus_eq_dec : EqDecision CallStatus.
Proof. solve_decision. Defined.

(** ** Errors *)

Inductive JsError :=
| AssertionError (message : string)   (* strictAssert *)
| MissingCaseError                    (* missingCaseError(x) *)
| Error (message : string).           (* new Error(...) *)

Inductive result (A : Type) :=
| Ok (a : A)
| Err (e : JsError).
Arguments Ok {A} a.
Arguments Err {A} e.

(** Sequencing: an exception aborts the rest of the function body.  The
    monadic notations [x ← r; k] and [r;; k] are stdpp's. *)
#[global] Instance result_ret : MRet result := λ A a, Ok a.
#[global] Instance result_bind : MBind result := λ A B k r,
  match r with
  | Ok a => k a
  | Err e => Err e
  end.

Definition strictAssert (condition : bool) (message : string) : result unit :=
  if condition then Ok tt else Err (AssertionError message).

Definition is_ok {A} (r : result A) : bool :=
  match r with Ok _ => true | Err _ => false end.

(** ** Records *)

Module CallEventDetails.
Record t := mk {
  callId : string;
  peerId : string;
  ringerId : option string;
  mode : CallMode.t;
  type : CallType.t;
  direction : CallDirection.t;
  event : CallEvent;
  timestamp : Z;
  eventSource : string;
}.
End CallEventDetails.

Module CallHistoryDetails.
Record t := mk {
  callId : string;
  peerId : string;
  ringerId : option string;
  mode : CallMode.t;
  type : CallType.t;
  direction : CallDirection.t;
  timestamp : Z;
  status : CallStatus;
}.

(** [{ ...callHistory, timestamp }] *)
Definition with_timestamp (h : t) (ts : Z) : t :=
  mk (callId h) (peerId h) (ringerId h) (mode h) (type h) (direction h)
     ts (status h).
End CallHistoryDetails.

#[global] Instance CallHistoryDetails_eq_dec : EqDecision CallHistoryDetails.t.
Proof. solve_decision. Defined.

(** ** Status transitions *)

Definition transitionDirectCallStatus
    (status : option CallStatus) (callEvent : CallEvent)
    (direction : CallDirection.t) : result CallStatus :=
  (* In all cases if we get a delete event, we need to delete the call,
     and never transition from deleted. *)
  if bool_decide (callEvent = Remote RemoteCallEvent.Delete)
     || bool_decide (callEvent = Local LocalCallEvent.Delete)
     || bool_decide (status = Some DirectCallStatus.Deleted)
  then Ok DirectCallStatus.Deleted
  else if bool_decide (callEvent = Remote RemoteCallEvent.Accepted)
          || bool_decide (callEvent = Local LocalCallEvent.Accepted)
  then Ok DirectCallStatus.Accepted
  else if bool_decide (status = Some DirectCallStatus.Accepted)
  then Ok DirectCallStatus.Accepted
  else if bool_decide (callEvent = Remote RemoteCallEvent.NotAccepted)
  then
    if bool_decide (status = Some DirectCallStatus.Declined)
    then Ok DirectCallStatus.Declined
    else Ok DirectCallStatus.Missed
  else if bool_decide (callEvent = Local LocalCallEvent.Missed)
  then Ok DirectCallStatus.Missed
  else if bool_decide (callEvent = Local LocalCallEvent.Declined)
  then Ok DirectCallStatus.Declined
  else if bool_decide (callEvent = Local LocalCallEvent.Hangup)
  then
    if bool_decide (direction = CallDirection.Incoming)
    then Ok DirectCallStatus.Declined
    else Ok DirectCallStatus.Missed
  else if bool_decide (callEvent = Local LocalCallEvent.RemoteHangup)
  then
    if bool_decide (direction = CallDirection.Incoming)
    then Ok DirectCallStatus.Missed
    else Ok DirectCallStatus.Declined
  else if bool_decide (callEvent = Local LocalCallEvent.Started)
          || bool_decide (callEvent = Local LocalCallEvent.Ringing)
  then Ok DirectCallStatus.Pending
  else Err MissingCaseError.

Definition transitionGroupCallStatus
    (status : option CallStatus) (event : CallEvent)
    (direction : CallDirection.t) : result CallStatus :=
  if bool_decide (event = Remote RemoteCallEvent.Delete)
     || bool_decide (event = Local LocalCallEvent.Delete)
     || bool_decide (status = Some GroupCallStatus.Deleted)
  then Ok GroupCallStatus.Deleted
  else if bool_decide (status = Some GroupCallStatus.Accepted)
  then Ok GroupCallStatus.Accepted
  else if bool_decide (event = Remote RemoteCallEvent.NotAccepted)
  then Err (Error "callHistoryDetails: Group calls shouldn't send NotAccepted")
  else if bool_decide (event = Remote RemoteCallEvent.Accepted)
          || bool_decide (event = Local LocalCallEvent.Accepted)
  then
    match status with
    | None => Ok GroupCallStatus.Joined
    | Some CallStatusValue.Ringing
    | Some CallStatusValue.Missed
    | Some CallStatusValue.Declined => Ok GroupCallStatus.Accepted
    | Some CallStatusValue.GenericGroupCall => Ok GroupCallStatus.Joined
    | Some CallStatusValue.Joined => Ok GroupCallStatus.Joined
    | Some CallStatusValue.OutgoingRing => Ok GroupCallStatus.OutgoingRing
    | Some _ => Err MissingCaseError
    end
  else if bool_decide (event = Local LocalCallEvent.Started)
  then Ok GroupCallStatus.GenericGroupCall
  else if bool_decide (event = Local LocalCallEvent.Ringing)
  then Ok GroupCallStatus.Ringing
  else if bool_decide (event = Local LocalCallEvent.Missed)
  then Ok GroupCallStatus.Missed
  else if bool_decide (event = Local LocalCallEvent.Declined)
  then Ok GroupCallStatus.Declined
  else if bool_decide (event = Local LocalCallEvent.Hangup)
  then
    if bool_decide (direction = CallDirection.Incoming)
    then Ok GroupCallStatus.Declined
    else Ok GroupCallStatus.Missed
  else if bool_decide (event = Local LocalCallEvent.RemoteHangup)
  then
    if bool_decide (direction = CallDirection.Incoming)
    then Ok GroupCallStatus.Missed
    else Ok GroupCallStatus.Declined
  else Err MissingCaseError.

Definition transitionAdhocCallStatus
    (status : option CallStatus) (callEvent : CallEvent)
    (direction : CallDirection.t) : result CallStatus :=
  if bool_decide (callEvent = Remote RemoteCallEvent.Delete)
     || bool_decide (callEvent = Local LocalCallEvent.Delete)
     || bool_decide (status = Some AdhocCallStatus.Deleted)
  then Ok AdhocCallStatus.Deleted
  (* The Accepted event is used to indicate we have fully joined an adhoc
     call. *)
  else if bool_decide (callEvent = Remote RemoteCallEvent.Accepted)
          || bool_decide (callEvent = Local LocalCallEvent.Accepted)
  then Ok AdhocCallStatus.Joined
  else if bool_decide (status = Some AdhocCallStatus.Joined)
  then Ok AdhocCallStatus.Joined
  else if bool_decide (callEvent = Remote RemoteCallEvent.NotAccepted)
          || bool_decide (callEvent = Local LocalCallEvent.Missed)
          || bool_decide (callEvent = Local LocalCallEvent.Declined)
          || bool_decide (callEvent = Local LocalCallEvent.Hangup)
          || bool_decide (callEvent = Local LocalCallEvent.RemoteHangup)
          || bool_decide (callEvent = Local LocalCallEvent.Started)
          || bool_decide (callEvent = Local LocalCallEvent.Ringing)
  then Ok AdhocCallStatus.Pending
  else Err MissingCaseError.

(** ** Timestamp merge policy *)

Definition transitionTimestamp
    (callHistory : option CallHistoryDetails.t)
    (callEvent : CallEventDetails.t) : result Z :=
  (* Sometimes when a device is asleep the timestamp will be stuck in the
     past.  In some cases, we'll accept whatever the most recent
     timestamp is. *)
  let latestTimestamp :=
    Z.max (CallEventDetails.timestamp callEvent)
          (default 0 (CallHistoryDetails.timestamp <$> callHistory)) in
  match callHistory with
  | None =>
      (* Always accept the timestamp if we have no other timestamps. *)
      Ok (CallEventDetails.timestamp callEvent)
  | Some callHistory =>
      let status := CallHistoryDetails.status callHistory in
      (* Deleted call history should never be changed *)
      if bool_decide (status = DirectCallStatus.Deleted)
         || bool_decide (status = GroupCallStatus.Deleted)
         || bool_decide (status = AdhocCallStatus.Deleted)
      then Ok (CallHistoryDetails.timestamp callHistory)
      (* Accepted call history should only be changed if we get a remote
         accepted event with possibly a better timestamp. *)
      else if bool_decide (status = DirectCallStatus.Accepted)
              || bool_decide (status = GroupCallStatus.Accepted)
              || bool_decide (status = GroupCallStatus.Joined)
              || bool_decide (status = AdhocCallStatus.Joined)
      then
        if bool_decide (CallEventDetails.event callEvent
                        = Remote RemoteCallEvent.Accepted)
        then Ok latestTimestamp
        else Ok (CallHistoryDetails.timestamp callHistory)
      (* Declined call history should only be changed if we get a remote
         'not accepted' event with possibly a better timestamp. *)
      else if bool_decide (status = DirectCallStatus.Declined)
              || bool_decide (status = GroupCallStatus.Declined)
      then
        if bool_decide (CallEventDetails.event callEvent
                        = Remote RemoteCallEvent.NotAccepted)
        then Ok latestTimestamp
        else Ok (CallHistoryDetails.timestamp callHistory)
      (* We don't care about holding onto timestamps that were from these
         states *)
      else if bool_decide (status = DirectCallStatus.Pending)
              || bool_decide (status = GroupCallStatus.GenericGroupCall)
              || bool_decide (status = GroupCallStatus.OutgoingRing)
              || bool_decide (status = GroupCallStatus.Ringing)
              || bool_decide (status = DirectCallStatus.Missed)
              || bool_decide (status = GroupCallStatus.Missed)
              || bool_decide (status = AdhocCallStatus.Pending)
      then Ok latestTimestamp
      else Err MissingCaseError
  end.

(** ** The reconciliation step *)

(** [callHistoryDetailsSchema.parse] validates the shape of the record;
    on a record of the right type it returns it unchanged. *)
Definition callHistoryDetailsSchema_parse
    (h : CallHistoryDetails.t) : result CallHistoryDetails.t := Ok h.

Definition transitionCallHistory
    (callHistory : option CallHistoryDetails.t)
    (callEvent : CallEventDetails.t) : result CallHistoryDetails.t :=
  let callId := CallEventDetails.callId callEvent in
  let peerId := CallEventDetails.peerId callEvent in
  let ringerId := CallEventDetails.ringerId callEvent in
  let mode := CallEventDetails.mode callEvent in
  let type := CallEventDetails.type callEvent in
  let direction := CallEventDetails.direction callEvent in
  let event := CallEventDetails.event callEvent in
  match callHistory with
  | Some callHistory =>
      strictAssert (bool_decide (CallHistoryDetails.callId callHistory = callId))
        "callId must be same";;
      strictAssert (bool_decide (CallHistoryDetails.peerId callHistory = peerId))
        "peerId must be same";;
      strictAssert
        (bool_decide (ringerId = None)
         || bool_decide (CallHistoryDetails.ringerId callHistory = ringerId))
        "ringerId must be same if it exists";;
      strictAssert
        (bool_decide (CallHistoryDetails.direction callHistory = direction))
        "direction must be same";;
      strictAssert (bool_decide (CallHistoryDetails.type callHistory = type))
        "type must be same";;
      strictAssert (bool_decide (CallHistoryDetails.mode callHistory = mode))
        "mode must be same"
  | None => Ok tt
  end;;
  let prevStatus := CallHistoryDetails.status <$> callHistory in
  status ←
    match mode with
    | CallMode.Direct => transitionDirectCallStatus prevStatus event direction
    | CallMode.Group => transitionGroupCallStatus prevStatus event direction
    | CallMode.Adhoc => transitionAdhocCallStatus prevStatus event direction
    end;
  timestamp ← transitionTimestamp callHistory callEvent;
  callHistoryDetailsSchema_parse
    (CallHistoryDetails.mk callId peerId ringerId mode type direction
       timestamp status).

(** The per-mode dispatch alone, as [transitionCallHistory] performs it. *)
Definition transitionCallStatus
    (mode : CallMode.t) (status : option CallStatus) (event : CallEvent)
    (direction : CallDirection.t) : result CallStatus :=
  match mode with
  | CallMode.Direct => transitionDirectCallStatus status event direction
  | CallMode.Group => transitionGroupCallStatus status event direction
  | CallMode.Adhoc => transitionAdhocCallStatus status event direction
  end.

(** The mode's [Deleted] value. *)
Definition deletedStatus (mode : CallMode.t) : CallStatus :=
  match mode with
  | CallMode.Direct => DirectCallStatus.Deleted
  | CallMode.Group => GroupCallStatus.Deleted
  | CallMode.Adhoc => AdhocCallStatus.Deleted
  end.

Definition isDeleteEvent (event : CallEvent) : bool :=
  bool_decide (event = Remote RemoteCallEvent.Delete)
  || bool_decide (event = Local LocalCallEvent.Delete).


(** ** Wire representation of a call event *)

Module Proto.
Inductive Event := ACCEPTED | NOT_ACCEPTED | DELETE.
Inductive CallType := AUDIO_CALL | VIDEO_CALL | GROUP_CALL | AD_HOC_CALL.
Inductive Direction := INCOMING | OUTGOING.
(** The 64-bit fields [callId] and [timestamp] hold a [Long], given by
    its value. *)
Record CallEvent := mkCallEvent {
  peerId : list Byte.byte;
  callId : Z;
  type : CallType;
  direction : Direction;
  event : Event;
  timestamp : Z;
}.
End Proto.

Definition directionToProto (direction : CallDirection.t) : Proto.Direction :=
  match direction with
  | CallDirection.Incoming => Proto.INCOMING
  | CallDirection.Outgoing => Proto.OUTGOING
  end.

Definition typeToProto (type : CallType.t) : Proto.CallType :=
  match type with
  | CallType.Audio => Proto.AUDIO_CALL
  | CallType.Video => Proto.VIDEO_CALL
  | CallType.Group => Proto.GROUP_CALL
  | CallType.Adhoc => Proto.AD_HOC_CALL
  end.

Definition statusToProto (callStatus : CallStatus) : option Proto.Event :=
  match callStatus with
  | CallStatusValue.Accepted => Some Proto.ACCEPTED
  | CallStatusValue.Declined => Some Proto.NOT_ACCEPTED
  | CallStatusValue.Deleted => Some Proto.DELETE
  | CallStatusValue.Missed => None
  | CallStatusValue.Pending => None
  | CallStatusValue.GenericGroupCall => None
  | CallStatusValue.OutgoingRing => None
  | CallStatusValue.Ringing => None
  | CallStatusValue.Joined => None
  | CallStatusValue.JoinedAdhoc => Some Proto.ACCEPTED
  end.

Definition shouldSyncStatus (callStatus : CallStatus) : bool :=
  match statusToProto callStatus with
  | Some _ => true
  | None => false
  end.

(** ** The collaborators: stores, projections and the sync queue *)

Module SeenStatus.
Inductive t := NotApplicable | Unseen | Seen.
End SeenStatus.

Module Conversation.
(** [conversation.type] *)
Inductive kind := direct | private | group.
Record t := mk {
  id : string;
  type : kind;
  serviceId : option string;
  groupId : option string;
  active_at : option Z;
}.
(** [conversation.set('active_at', v)] *)
Definition set_active_at (c : t) (v : Z) : t :=
  mk (id c) (type c) (serviceId c) (groupId c) (Some v).
End Conversation.

(** A message of type 'call-history'; its [readStatus] is always Read. *)
Module Message.
Record t := mk {
  id : string;
  conversationId : string;
  timestamp : Z;
  sent_at : Z;
  received_at : Z;
  received_at_ms : Z;
  seenStatus : option SeenStatus.t;
  callId : string;
}.
End Message.

#[global] Instance SeenStatus_eq_dec : EqDecision SeenStatus.t.
Proof. solve_decision. Defined.
#[global] Instance Conversation_kind_eq_dec : EqDecision Conversation.kind.
Proof. solve_decision. Defined.
#[global] Instance Message_eq_dec : EqDecision Message.t.
Proof. solve_decision. Defined.

(** A job of [singleProtoJobQueue] of type 'callEventSync'; the encoded
    [protoBase64] payload is kept as the call event it encodes. *)
Module SyncJob.
Record t := mk {
  serviceId : string;
  isSyncMessage : bool;
  callEvent : Proto.CallEvent;
  type : string;
  urgent : bool;
}.
End SyncJob.

(** Modelled from the spec: the persistence layer ([window.Signal.Data]),
    the conversation directory ([window.ConversationController]), the UI
    projection ([window.reduxActions.callHistory]), the local account and
    the outbound queue ([singleProtoJobQueue]) are collaborators outside
    the sources.  Call history is keyed by (callId, peerId); call-history
    messages by (conversationId, callId); the directory resolves an
    identifier to a conversation id. *)
Record World := mkWorld {
  conversationIndex : gmap string string;
  conversations : gmap string Conversation.t;
  callHistoryTable : gmap (string * string) CallHistoryDetails.t;
  callHistoryRedux : gmap string CallHistoryDetails.t;
  messages : gmap (string * string) Message.t;
  messageCounter : Z;
  guidCounter : nat;
  ourAci : option string;
  jobQueue : list SyncJob.t;
  errorLog : list string;
}.

Definition with_conversations
    (f : gmap string Conversation.t → gmap string Conversation.t)
    (w : World) : World :=
  mkWorld (conversationIndex w) (f (conversations w)) (callHistoryTable w)
    (callHistoryRedux w) (messages w) (messageCounter w) (guidCounter w)
    (ourAci w) (jobQueue w) (errorLog w).

Definition with_callHistoryTable
    (f : gmap (string * string) CallHistoryDetails.t
         → gmap (string * string) CallHistoryDetails.t)
    (w : World) : World :=
  mkWorld (conversationIndex w) (conversations w) (f (callHistoryTable w))
    (callHistoryRedux w) (messages w) (messageCounter w) (guidCounter w)
    (ourAci w) (jobQueue w) (errorLog w).

Definition with_callHistoryRedux
    (f : gmap string CallHistoryDetails.t → gmap string CallHistoryDetails.t)
    (w : World) : World :=
  mkWorld (conversationIndex w) (conversations w) (callHistoryTable w)
    (f (callHistoryRedux w)) (messages w) (messageCounter w) (guidCounter w)
    (ourAci w) (jobQueue w) (errorLog w).

Definition with_messages
    (f : gmap (string * string) Message.t → gmap (string * string) Message.t)
    (w : World) : World :=
  mkWorld (conversationIndex w) (conversations w) (callHistoryTable w)
    (callHistoryRedux w) (f (messages w)) (messageCounter w) (guidCounter w)
    (ourAci w) (jobQueue w) (errorLog w).

Definition with_messageCounter (v : Z) (w : World) : World :=
  mkWorld (conversationIndex w) (conversations w) (callHistoryTable w)
    (callHistoryRedux w) (messages w) v (guidCounter w)
    (ourAci w) (jobQueue w) (errorLog w).

Definition with_guidCounter (v : nat) (w : World) : World :=
  mkWorld (conversationIndex w) (conversations w) (callHistoryTable w)
    (callHistoryRedux w) (messages w) (messageCounter w) v
    (ourAci w) (jobQueue w) (errorLog w).

Definition with_jobQueue (f : list SyncJob.t → list SyncJob.t) (w : World)
    : World :=
  mkWorld (conversationIndex w) (conversations w) (callHistoryTable w)
    (callHistoryRedux w) (messages w) (messageCounter w) (guidCounter w)
    (ourAci w) (f (jobQueue w)) (errorLog w).

Definition with_errorLog (f : list string → list string) (w : World)
    : World :=
  mkWorld (conversationIndex w) (conversations w) (callHistoryTable w)
    (callHistoryRedux w) (messages w) (messageCounter w) (guidCounter w)
    (ourAci w) (jobQueue w) (f (errorLog w)).

(** An action runs in a world, changes it, and returns or throws; the
    changes made before a throw stay. *)
Definition Action (A : Type) : Type := World → result A * World.

#[global] Instance action_ret : MRet Action := λ A a w, (Ok a, w).
#[global] Instance action_bind : MBind Action := λ A B k m w,
  match m w with
  | (Ok a, w') => k a w'
  | (Err e, w') => (Err e, w')
  end.

Definition throw {A} (e : JsError) : Action A := λ w, (Err e, w).
Definition lift {A} (r : result A) : Action A := λ w, (r, w).
Definition gets {A} (f : World → A) : Action A := λ w, (Ok (f w), w).
Definition modify (f : World → World) : Action unit := λ w, (Ok tt, f w).

(** [try { body } catch (error) { handler(error) }] *)
Definition tryCatch {A} (body : Action A) (handler : JsError → Action A)
    : Action A := λ w,
  match body w with
  | (Ok a, w') => (Ok a, w')
  | (Err e, w') => handler e w'
  end.

Definition log_error (message : string) : Action unit :=
  modify (with_errorLog (λ l, (l ++ [message])%list)).

(** [window.ConversationController.get(id)]: the directory resolves the
    identifier and holds each conversation under its id. *)
Definition findConversation (w : World) (id : string)
    : option Conversation.t :=
  conversationIndex w !! id ≫= λ cid, conversations w !! cid.

Definition ConversationController_get (id : string)
    : Action (option Conversation.t) :=
  gets (λ w, findConversation w id).

(** A method call on the conversation model: it mutates the one object
    the directory holds. *)
Definition Conversation_update (cid : string)
    (f : Conversation.t → Conversation.t) : Action unit :=
  modify (with_conversations (alter f cid)).

(** [window.Signal.Data.getCallHistory(callId, peerId)] *)
Definition Data_getCallHistory (callId peerId : string)
    : Action (option CallHistoryDetails.t) :=
  gets (λ w, callHistoryTable w !! (callId, peerId)).

(** [window.Signal.Data.saveCallHistory(callHistory)] *)
Definition Data_saveCallHistory (callHistory : CallHistoryDetails.t)
    : Action unit :=
  modify (with_callHistoryTable
            (<[(CallHistoryDetails.callId callHistory,
                CallHistoryDetails.peerId callHistory) := callHistory]>)).

(** [window.reduxActions.callHistory] *)
Definition removeCallHistory (callId : string) : Action unit :=
  modify (with_callHistoryRedux (delete callId)).

Definition addCallHistory (callHistory : CallHistoryDetails.t) : Action unit :=
  modify (with_callHistoryRedux
            (<[CallHistoryDetails.callId callHistory := callHistory]>)).

(** [window.Signal.Data.getCallHistoryMessageByCallId] *)
Definition Data_getCallHistoryMessageByCallId (conversationId callId : string)
    : Action (option Message.t) :=
  gets (λ w, messages w !! (conversationId, callId)).

(** [window.Signal.Data.removeMessage] of a call-history message *)
Definition Data_removeMessage (message : Message.t) : Action unit :=
  modify (with_messages
            (delete (Message.conversationId message, Message.callId message))).

(** [window.Signal.Data.saveMessage]; it returns the message id. *)
Definition Data_saveMessage (message : Message.t) : Action string :=
  modify (with_messages
            (<[(Message.conversationId message, Message.callId message)
               := message]>));;
  mret (Message.id message).

(** [window.textsecure.storage.user.getCheckedAci()] *)
Definition getCheckedAci : Action string := λ w,
  match ourAci w with
  | Some aci => (Ok aci, w)
  | None => (Err (Error "getCheckedAci: ACI is not set"), w)
  end.

(** [incrementMessageCounter()] *)
Definition incrementMessageCounter : Action Z := λ w,
  (Ok (messageCounter w), with_messageCounter (messageCounter w + 1) w).

Section Actions.

(** Encoders and predicates of utility modules outside the sources. *)
Variable uuidToBytes : string → list Byte.byte.
Variable Bytes_fromBase64 : string → list Byte.byte.
(** [Long.fromString] and [Long.fromNumber] of the long library, outside
    the sources: the first throws on the strings it cannot read, the
    second maps every number to a 64-bit value. *)
Variable Long_fromString : string → result Z.
Variable Long_fromNumber : Z → Z.
Variable isAciString : string → bool.
Variable maxSeenStatus : SeenStatus.t → SeenStatus.t → SeenStatus.t.
(** [generateGuid()] draws the next identifier of this supply. *)
Variable guid : nat → string.
(** [conversation.incrementSentMessageCount()] and
    [conversation.incrementMessageCount()], methods of the conversation
    model outside the sources: what they do to the conversation they are
    called on. *)
Variable incrementSentMessageCount : Conversation.t → Conversation.t.
Variable incrementMessageCount : Conversation.t → Conversation.t.

Definition generateGuid : Action string := λ w,
  (Ok (guid (guidCounter w)), with_guidCounter (S (guidCounter w)) w).

Definition getBytesForPeerId (callHistory : CallHistoryDetails.t)
    : list Byte.byte :=
  let peerId :=
    if bool_decide (CallHistoryDetails.mode callHistory = CallMode.Adhoc)
    then Bytes_fromBase64 (CallHistoryDetails.peerId callHistory)
    else uuidToBytes (CallHistoryDetails.peerId callHistory) in
  if bool_decide (length peerId = 0%nat)
  then Bytes_fromBase64 (CallHistoryDetails.peerId callHistory)
  else peerId.

Definition getProtoForCallHistory (callHistory : CallHistoryDetails.t)
    : result Proto.CallEvent :=
  match statusToProto (CallHistoryDetails.status callHistory) with
  | None =>
      Err (AssertionError
             "getProtoForCallHistory: Cannot create proto for status")
  | Some event =>
      let peerId := getBytesForPeerId callHistory in
      callId ← Long_fromString (CallHistoryDetails.callId callHistory);
      Ok (Proto.mkCallEvent
            peerId
            callId
            (typeToProto (CallHistoryDetails.type callHistory))
            (directionToProto (CallHistoryDetails.direction callHistory))
            event
            (Long_fromNumber (CallHistoryDetails.timestamp callHistory)))
  end.

Definition getPeerIdFromConversation (conversation : Conversation.t)
    : result string :=
  if bool_decide (Conversation.type conversation = Conversation.direct)
     || bool_decide (Conversation.type conversation = Conversation.private)
  then
    match Conversation.serviceId conversation with
    | Some serviceId =>
        strictAssert (isAciString serviceId) "ACI must exist for direct chat";;
        Ok serviceId
    | None => Err (AssertionError "ACI must exist for direct chat")
    end
  else
    match Conversation.groupId conversation with
    | Some groupId => Ok groupId
    | None => Err (AssertionError "groupId must exist for group chat")
    end.

(** [saveCallHistory]: persist the record, update the UI projection and
    the call-history message of the conversation.  The conversation model
    is passed by its id: it is the object the directory holds, and the
    method calls on it change that object.  The notifications that follow
    the message upsert (message cache registration, 'newmessage' trigger,
    last-message refresh, archive state, unread count) touch nothing
    modelled here. *)
Definition saveCallHistory (callHistory : CallHistoryDetails.t)
    (conversationId : string) (receivedAtCounter receivedAtMS : option Z)
    : Action CallHistoryDetails.t :=
  let status := CallHistoryDetails.status callHistory in
  let isDeleted :=
    bool_decide (status = DirectCallStatus.Deleted)
    || bool_decide (status = GroupCallStatus.Deleted) in
  Data_saveCallHistory callHistory;;
  (if isDeleted
   then removeCallHistory (CallHistoryDetails.callId callHistory)
   else addCallHistory callHistory);;
  prevMessage ← Data_getCallHistoryMessageByCallId conversationId
                  (CallHistoryDetails.callId callHistory);
  if isDeleted then
    match prevMessage with
    | Some message => Data_removeMessage message
    | None => mret tt
    end;;
    mret callHistory
  else
    let unseen :=
      match CallHistoryDetails.mode callHistory with
      | CallMode.Direct =>
          bool_decide (CallHistoryDetails.direction callHistory
                       = CallDirection.Incoming)
          && (bool_decide (status = DirectCallStatus.Missed)
              || bool_decide (status = DirectCallStatus.Pending))
      | CallMode.Group =>
          bool_decide (CallHistoryDetails.direction callHistory
                       = CallDirection.Incoming)
          && (bool_decide (status = GroupCallStatus.Ringing)
              || bool_decide (status = GroupCallStatus.GenericGroupCall)
              || bool_decide (status = GroupCallStatus.Missed))
      | CallMode.Adhoc => false
      end in
    let seenStatus :=
      if unseen then SeenStatus.Unseen else SeenStatus.NotApplicable in
    let seenStatus :=
      match prevMessage ≫= Message.seenStatus with
      | Some prevSeenStatus => maxSeenStatus seenStatus prevSeenStatus
      | None => seenStatus
      end in
    id ← match prevMessage with
         | Some message => mret (Message.id message)
         | None => generateGuid
         end;
    received_at ← match Message.received_at <$> prevMessage with
                  | Some v => mret v
                  | None =>
                      match receivedAtCounter with
                      | Some v => mret v
                      | None => incrementMessageCounter
                      end
                  end;
    let message :=
      Message.mk id conversationId
        (default (CallHistoryDetails.timestamp callHistory)
           (Message.timestamp <$> prevMessage))
        (default (CallHistoryDetails.timestamp callHistory)
           (Message.sent_at <$> prevMessage))
        received_at
        (default (default (CallHistoryDetails.timestamp callHistory)
                    receivedAtMS)
           (Message.received_at_ms <$> prevMessage))
        (Some seenStatus)
        (CallHistoryDetails.callId callHistory) in
    getCheckedAci;;
    Data_saveMessage message;;
    (if bool_decide (prevMessage = None) then
       if bool_decide (CallHistoryDetails.direction callHistory
                       = CallDirection.Outgoing)
       then Conversation_update conversationId incrementSentMessageCount
       else Conversation_update conversationId incrementMessageCount
     else mret tt);;
    Conversation_update conversationId
      (λ c, Conversation.set_active_at c
              (Z.max (default 0 (Conversation.active_at c))
                     (CallHistoryDetails.timestamp callHistory)));;
    mret callHistory.

(** [updateRemoteCallHistory]: enqueue the sync message of a record. *)
Definition updateRemoteCallHistory (callHistory : CallHistoryDetails.t)
    : Action unit :=
  if negb (shouldSyncStatus (CallHistoryDetails.status callHistory))
  then mret tt
  else
    tryCatch
      (ourAci ← getCheckedAci;
       callEvent ← lift (getProtoForCallHistory callHistory);
       modify (with_jobQueue
                 (λ q, (q ++ [SyncJob.mk ourAci true callEvent
                                "callEventSync" false])%list)))
      (λ error,
         log_error "updateRemoteCallHistory: Failed to queue sync message:").

(** [updateLocalCallHistory]; the conversation's job queue runs the body
    in arrival order, one job at a time. *)
Definition updateLocalCallHistory (callEvent : CallEventDetails.t)
    (receivedAtCounter receivedAtMS : option Z)
    : Action (option CallHistoryDetails.t) :=
  conversation ← ConversationController_get
                   (CallEventDetails.peerId callEvent);
  match conversation with
  | None =>
      throw (AssertionError "updateLocalCallHistory: Conversation not found")
  | Some conversation =>
      prevCallHistory ← Data_getCallHistory
                          (CallEventDetails.callId callEvent)
                          (CallEventDetails.peerId callEvent);
      match transitionCallHistory prevCallHistory callEvent with
      | Err error =>
          log_error
            "updateLocalCallHistory: Couldn't transition call history:";;
          mret None
      | Ok callHistory =>
          updatedCallHistory ← saveCallHistory callHistory
                                 (Conversation.id conversation)
                                 receivedAtCounter receivedAtMS;
          mret (Some updatedCallHistory)
      end
  end.

Definition updateCallHistoryFromLocalEvent (callEvent : CallEventDetails.t)
    (receivedAtCounter receivedAtMS : option Z) : Action unit :=
  updatedCallHistory ← updateLocalCallHistory callEvent receivedAtCounter
                         receivedAtMS;
  match updatedCallHistory with
  | None => mret tt
  | Some updatedCallHistory => updateRemoteCallHistory updatedCallHistory
  end.

Definition updateLocalGroupCallHistoryTimestamp
    (conversationId callId : string) (timestamp : Z)
    : Action (option CallHistoryDetails.t) :=
  conversation ← ConversationController_get conversationId;
  match conversation with
  | None => mret None
  | Some conversation =>
      peerId ← lift (getPeerIdFromConversation conversation);
      prevCallHistory ← Data_getCallHistory callId peerId;
      match prevCallHistory with
      | None =>
          (* We don't have all the details to add new call history here *)
          mret None
      | Some prevCallHistory =>
          if timestamp >=? CallHistoryDetails.timestamp prevCallHistory
          then mret (Some prevCallHistory)
          else
            updatedCallHistory ←
              saveCallHistory
                (CallHistoryDetails.with_timestamp prevCallHistory timestamp)
                (Conversation.id conversation) None None;
            mret (Some updatedCallHistory)
      end
  end.

End Actions.

(** * The rest of the module *)

(** ** Sync events from linked devices *)

(** The result of [callEventNormalizeSchema.parse]: identifiers as
    strings, the timestamp as a number, and the three enumerated fields of
    the wire message.  [None] stands for any wire value that is none of
    the members [getCallEventForProto] compares with. *)
Module NormalizedCallEvent.
Record t := mk {
  callId : string;
  peerId : string;
  timestamp : Z;
  type : option Proto.CallType;
  direction : option Proto.Direction;
  event : option Proto.Event;
}.
End NormalizedCallEvent.

(** The [TypeError]s of [getCallEventForProto], by message. *)
Inductive TypeError :=
| UnknownCallType        (* `Unknown call type ${callEvent.type}` *)
| UnknownCallDirection   (* `Unknown call direction ${callEvent.direction}` *)
| UnknownCallEvent.      (* `Unknown call event ${callEvent.event}` *)

(** [callEventDetailsSchema.parse] validates the shape of the record; on
    a record of the right type it returns it unchanged. *)
Definition callEventDetailsSchema_parse
    (e : CallEventDetails.t) : CallEventDetails.t := e.

(** [getCallEventForProto], from the normalized message on. *)
Definition getCallEventForProto (callEvent : NormalizedCallEvent.t)
    (eventSource : string) : TypeError + CallEventDetails.t :=
  match
    match NormalizedCallEvent.type callEvent with
    | Some Proto.GROUP_CALL => inr CallType.Group
    | Some Proto.AUDIO_CALL => inr CallType.Audio
    | Some Proto.VIDEO_CALL => inr CallType.Video
    | Some Proto.AD_HOC_CALL => inr CallType.Adhoc
    | None => inl UnknownCallType
    end
  with
  | inl error => inl error
  | inr type =>
      let mode :=
        if bool_decide (type = CallType.Group) then CallMode.Group
        else if bool_decide (type = CallType.Adhoc) then CallMode.Adhoc
        else CallMode.Direct in
      match
        match NormalizedCallEvent.direction callEvent with
        | Some Proto.INCOMING => inr CallDirection.Incoming
        | Some Proto.OUTGOING => inr CallDirection.Outgoing
        | None => inl UnknownCallDirection
        end
      with
      | inl error => inl error
      | inr direction =>
          match
            match NormalizedCallEvent.event callEvent with
            | Some Proto.ACCEPTED => inr RemoteCallEvent.Accepted
            | Some Proto.NOT_ACCEPTED => inr RemoteCallEvent.NotAccepted
            | Some Proto.DELETE => inr RemoteCallEvent.Delete
            | None => inl UnknownCallEvent
            end
          with
          | inl error => inl error
          | inr event =>
              inr (callEventDetailsSchema_parse
                     (CallEventDetails.mk
                        (NormalizedCallEvent.callId callEvent)
                        (NormalizedCallEvent.peerId callEvent)
                        None mode type direction (Remote event)
                        (NormalizedCallEvent.timestamp callEvent)
                        eventSource))
          end
      end
  end.

(** ** Local events from the calling engine *)

(** The keys of [endedReasonToEvent], a table total over the
    enumeration. *)
Module CallEndedReason.
Inductive t :=
| AcceptedOnAnotherDevice | RemoteHangup | LocalHangup
| Busy | BusyOnAnotherDevice | ConnectionFailure | Glare | GlareFailure
| InternalFailure | ReCall | ReceivedOfferExpired | ReceivedOfferWhileActive
| ReceivedOfferWithGlare | RemoteHangupNeedPermission | SignalingFailure
| Timeout | Declined | DeclinedOnAnotherDevice.
End CallEndedReason.

(** The states [getLocalCallEventFromDirectCall] distinguishes; its chain
    of tests is exhaustive over them. *)
Module CallState.
Inductive t := Prering | Ringing | Accepted | Reconnecting | Ended.
End CallState.

(** The keys of [ringUpdateToEvent]. *)
Module RingUpdate.
Inductive t :=
| AcceptedOnAnotherDevice | BusyLocally | BusyOnAnotherDevice
| CancelledByRinger | DeclinedOnAnotherDevice | ExpiredRequest | Requested.
End RingUpdate.

Module GroupCallJoinState.
Inductive t := NotJoined | Pending | Joining | Joined.
End GroupCallJoinState.

#[global] Instance CallState_eq_dec : EqDecision CallState.t.
Proof. solve_decision. Defined.
#[global] Instance GroupCallJoinState_eq_dec
  : EqDecision GroupCallJoinState.t.
Proof. solve_decision. Defined.

(** The fields of a direct [Call] the module reads. *)
Module Call.
Record t := mk {
  state : CallState.t;
  endedReason : option CallEndedReason.t;
}.
End Call.

Module GroupCallMeta.
Record t := mk {
  callId : string;
  ringerId : string;
}.
End GroupCallMeta.

Definition endedReasonToEvent (callEndedReason : CallEndedReason.t)
    : LocalCallEvent.t :=
  match callEndedReason with
  (* Accepted *)
  | CallEndedReason.AcceptedOnAnotherDevice => LocalCallEvent.Accepted
  (* Hangup (Incoming = Declined, Outgoing = Missed) *)
  | CallEndedReason.RemoteHangup => LocalCallEvent.RemoteHangup
  | CallEndedReason.LocalHangup => LocalCallEvent.Hangup
  (* Missed *)
  | CallEndedReason.Busy => LocalCallEvent.Missed
  | CallEndedReason.BusyOnAnotherDevice => LocalCallEvent.Missed
  | CallEndedReason.ConnectionFailure => LocalCallEvent.Missed
  | CallEndedReason.Glare => LocalCallEvent.Missed
  | CallEndedReason.GlareFailure => LocalCallEvent.Missed
  | CallEndedReason.InternalFailure => LocalCallEvent.Missed
  | CallEndedReason.ReCall => LocalCallEvent.Missed
  | CallEndedReason.ReceivedOfferExpired => LocalCallEvent.Missed
  | CallEndedReason.ReceivedOfferWhileActive => LocalCallEvent.Missed
  | CallEndedReason.ReceivedOfferWithGlare => LocalCallEvent.Missed
  | CallEndedReason.RemoteHangupNeedPermission => LocalCallEvent.Missed
  | CallEndedReason.SignalingFailure => LocalCallEvent.Missed
  | CallEndedReason.Timeout => LocalCallEvent.Missed
  | CallEndedReason.Declined => LocalCallEvent.Missed
  | CallEndedReason.DeclinedOnAnotherDevice => LocalCallEvent.Missed
  end.

Definition getLocalCallEventFromCallEndedReason
    (callEndedReason : CallEndedReason.t) : LocalCallEvent.t :=
  endedReasonToEvent callEndedReason.

Definition getLocalCallEventFromDirectCall (call : Call.t)
    : result (option LocalCallEvent.t) :=
  if bool_decide (Call.state call = CallState.Accepted)
  then Ok (Some LocalCallEvent.Accepted)
  else if bool_decide (Call.state call = CallState.Ended)
  then
    match Call.endedReason call with
    | None => Err (AssertionError "Call ended without reason")
    | Some endedReason =>
        Ok (Some (getLocalCallEventFromCallEndedReason endedReason))
    end
  else if bool_decide (Call.state call = CallState.Ringing)
  then Ok (Some LocalCallEvent.Ringing)
  else if bool_decide (Call.state call = CallState.Prering)
  then Ok None
  else if bool_decide (Call.state call = CallState.Reconnecting)
  then Ok None
  else Err MissingCaseError.

Definition ringUpdateToEvent (update : RingUpdate.t) : LocalCallEvent.t :=
  match update with
  | RingUpdate.AcceptedOnAnotherDevice => LocalCallEvent.Accepted
  | RingUpdate.BusyLocally => LocalCallEvent.Missed
  | RingUpdate.BusyOnAnotherDevice => LocalCallEvent.Missed
  | RingUpdate.CancelledByRinger => LocalCallEvent.Missed
  | RingUpdate.DeclinedOnAnotherDevice => LocalCallEvent.Missed
  | RingUpdate.ExpiredRequest => LocalCallEvent.Missed
  | RingUpdate.Requested => LocalCallEvent.Ringing
  end.

Definition getLocalCallEventFromRingUpdate (update : RingUpdate.t)
    : option LocalCallEvent.t :=
  Some (ringUpdateToEvent update).

Section MoreActions.

Variable uuidToBytes : string → list Byte.byte.
Variable Bytes_fromBase64 : string → list Byte.byte.
Variable Long_fromString : string → result Z.
Variable Long_fromNumber : Z → Z.
Variable maxSeenStatus : SeenStatus.t → SeenStatus.t → SeenStatus.t.
Variable guid : nat → string.
Variable incrementSentMessageCount : Conversation.t → Conversation.t.
Variable incrementMessageCount : Conversation.t → Conversation.t.
(** [isMe(conversation.attributes)], of a utility module outside the
    sources. *)
Variable isMe : Conversation.t → bool.

Definition getCallDirectionFromRingerId (ringerId : string)
    : Action CallDirection.t :=
  ringerConversation ← ConversationController_get ringerId;
  match ringerConversation with
  | None =>
      throw (AssertionError
               "getCallDirectionFromRingerId: Missing ringer conversation")
  | Some ringerConversation =>
      mret (if isMe ringerConversation
            then CallDirection.Outgoing
            else CallDirection.Incoming)
  end.

Definition getLocalCallEventFromJoinState
    (joinState : option GroupCallJoinState.t)
    (groupCallMeta : GroupCallMeta.t) : Action (option LocalCallEvent.t) :=
  direction ← getCallDirectionFromRingerId
                (GroupCallMeta.ringerId groupCallMeta);
  if bool_decide (direction = CallDirection.Incoming) then
    if bool_decide (joinState = Some GroupCallJoinState.Joined)
    then mret (Some LocalCallEvent.Accepted)
    else if bool_decide (joinState = Some GroupCallJoinState.NotJoined)
            || bool_decide (joinState = None)
    then mret (Some LocalCallEvent.Started)
    else if bool_decide (joinState = Some GroupCallJoinState.Joining)
            || bool_decide (joinState = Some GroupCallJoinState.Pending)
    then mret (Some LocalCallEvent.Accepted)
    else throw MissingCaseError
  else
    if bool_decide (joinState = Some GroupCallJoinState.NotJoined)
       || bool_decide (joinState = None)
    then mret (Some LocalCallEvent.Started)
    else mret (Some LocalCallEvent.Ringing).

Definition updateLocalAdhocCallHistory (callEvent : CallEventDetails.t)
    : Action (option CallHistoryDetails.t) :=
  prevCallHistory ← Data_getCallHistory
                      (CallEventDetails.callId callEvent)
                      (CallEventDetails.peerId callEvent);
  match transitionCallHistory prevCallHistory callEvent with
  | Err error =>
      log_error "updateAdhocCallHistory: Couldn't transition call history:";;
      mret None
  | Ok callHistory =>
      let status := CallHistoryDetails.status callHistory in
      lift (strictAssert
              (bool_decide (status = AdhocCallStatus.Pending)
               || bool_decide (status = AdhocCallStatus.Joined)
               || bool_decide (status = AdhocCallStatus.Deleted))
              "updateAdhocCallHistory: callHistory must have adhoc status");;
      let isDeleted := bool_decide (status = AdhocCallStatus.Deleted) in
      (if bool_decide (prevCallHistory = Some callHistory)
       then mret tt
       else Data_saveCallHistory callHistory);;
      (if isDeleted
       then removeCallHistory (CallHistoryDetails.callId callHistory)
       else addCallHistory callHistory);;
      mret (Some callHistory)
  end.


Definition updateCallHistoryFromRemoteEvent (callEvent : CallEventDetails.t)
    (receivedAtCounter receivedAtMS : Z) : Action unit :=
  if bool_decide (CallEventDetails.mode callEvent = CallMode.Direct)
     || bool_decide (CallEventDetails.mode callEvent = CallMode.Group)
  then
    updateLocalCallHistory maxSeenStatus guid incrementSentMessageCount
      incrementMessageCount callEvent
      (Some receivedAtCounter) (Some receivedAtMS);;
    mret tt
  else if bool_decide (CallEventDetails.mode callEvent = CallMode.Adhoc)
  then updateLocalAdhocCallHistory callEvent;; mret tt
  else mret tt.

End MoreActions.

(** ** Sequences of events *)

(** The status after a list of events, oldest first, each applied by
    [transitionCallHistory]'s dispatch; the first error stops the run. *)
Fixpoint transitionCallStatuses (mode : CallMode.t)
    (status : option CallStatus) (events : list CallEvent)
    (direction : CallDirection.t) : result (option CallStatus) :=
  match events with
  | [] => Ok status
  | event :: events =>
      next ← transitionCallStatus mode status event direction;
      transitionCallStatuses mode (Some next) events direction
  end.

(** The members of the mode's status enumeration. *)
Definition isStatusOfMode (mode : CallMode.t) (status : CallStatus) : bool :=
  match mode with
  | CallMode.Direct =>
      bool_decide (status = DirectCallStatus.Pending)
      || bool_decide (status = DirectCallStatus.Accepted)
      || bool_decide (status = DirectCallStatus.Missed)
      || bool_decide (status = DirectCallStatus.Declined)
      || bool_decide (status = DirectCallStatus.Deleted)
  | CallMode.Group =>
      bool_decide (status = GroupCallStatus.GenericGroupCall)
      || bool_decide (status = GroupCallStatus.OutgoingRing)
      || bool_decide (status = GroupCallStatus.Ringing)
      || bool_decide (status = GroupCallStatus.Joined)
      || bool_decide (status = GroupCallStatus.Accepted)
      || bool_decide (status = GroupCallStatus.Missed)
      || bool_decide (status = GroupCallStatus.Declined)
      || bool_decide (status = GroupCallStatus.Deleted)
  | CallMode.Adhoc =>
      bool_decide (status = AdhocCallStatus.Pending)
      || bool_decide (status = AdhocCallStatus.Joined)
      || bool_decide (status = AdhocCallStatus.Deleted)
  end.

(** The status an Accepted event leads to in the direct and adhoc
    machines, and that the group machine keeps once reached. *)
Definition acceptedStatus (mode : CallMode.t) : CallStatus :=
  match mode with
  | CallMode.Direct => DirectCallStatus.Accepted
  | CallMode.Group => GroupCallStatus.Accepted
  | CallMode.Adhoc => AdhocCallStatus.Joined
  end.

Definition isAcceptedEvent (event : CallEvent) : bool :=
  bool_decide (event = Remote RemoteCallEvent.Accepted)
  || bool_decide (event = Local LocalCallEvent.Accepted).

(** The remote event a syncable status is sent as. *)
Definition remoteEventOfProto (event : Proto.Event) : RemoteCallEvent.t :=
  match event with
  | Proto.ACCEPTED => RemoteCallEvent.Accepted
  | Proto.NOT_ACCEPTED => RemoteCallEvent.NotAccepted
  | Proto.DELETE => RemoteCallEvent.Delete
  end.

(** What a linked device's normalizer makes of an encoded call event:
    the enumerated fields as sent; the identifiers and the timestamp are
    what the schema decodes them to. *)
Definition normalizedOfProto (callId peerId : string) (timestamp : Z)
    (proto : Proto.CallEvent) : NormalizedCallEvent.t :=
  NormalizedCallEvent.mk callId peerId timestamp
    (Some (Proto.type proto)) (Some (Proto.direction proto))
    (Some (Proto.event proto)).

(** * Auxiliary definitions for the statements *)

(** ** Records of the scenarios *)

Section Scenarios.
Variables (callId peerId eventSource : string) (ringerId : option string).

Definition scenarioEvent (mode : CallMode.t) (type : CallType.t)
    (direction : CallDirection.t) (event : CallEvent) (timestamp : Z)
    : CallEventDetails.t :=
  CallEventDetails.mk callId peerId ringerId mode type direction event
    timestamp eventSource.

Definition scenarioHistory (mode : CallMode.t) (type : CallType.t)
    (direction : CallDirection.t) (status : CallStatus) (timestamp : Z)
    : CallHistoryDetails.t :=
  CallHistoryDetails.mk callId peerId ringerId mode type direction
    timestamp status.
End Scenarios.

(** The block of identity assertions guarding a transition from an
    existing record. *)
Definition identityAssertions
    (callHistory : option CallHistoryDetails.t)
    (callEvent : CallEventDetails.t) : result unit :=
  match callHistory with
  | Some callHistory =>
      strictAssert
        (bool_decide (CallHistoryDetails.callId callHistory
                      = CallEventDetails.callId callEvent))
        "callId must be same";;
      strictAssert
        (bool_decide (CallHistoryDetails.peerId callHistory
                      = CallEventDetails.peerId callEvent))
        "peerId must be same";;
      strictAssert
        (bool_decide (CallEventDetails.ringerId callEvent = None)
         || bool_decide (CallHistoryDetails.ringerId callHistory
                         = CallEventDetails.ringerId callEvent))
        "ringerId must be same if it exists";;
      strictAssert
        (bool_decide (CallHistoryDetails.direction callHistory
                      = CallEventDetails.direction callEvent))
        "direction must be same";;
      strictAssert
        (bool_decide (CallHistoryDetails.type callHistory
                      = CallEventDetails.type callEvent))
        "type must be same";;
      strictAssert
        (bool_decide (CallHistoryDetails.mode callHistory
                      = CallEventDetails.mode callEvent))
        "mode must be same"
  | None => Ok tt
  end.

(** The identity of a record agrees with an event. *)
Definition sameCall (callHistory : CallHistoryDetails.t)
    (callEvent : CallEventDetails.t) : Prop :=
  CallHistoryDetails.callId callHistory = CallEventDetails.callId callEvent
  ∧ CallHistoryDetails.peerId callHistory = CallEventDetails.peerId callEvent
  ∧ (CallEventDetails.ringerId callEvent = None
     ∨ CallHistoryDetails.ringerId callHistory
       = CallEventDetails.ringerId callEvent)
  ∧ CallHistoryDetails.direction callHistory
    = CallEventDetails.direction callEvent
  ∧ CallHistoryDetails.type callHistory = CallEventDetails.type callEvent
  ∧ CallHistoryDetails.mode callHistory = CallEventDetails.mode callEvent.

(** The members of [GroupCallStatus]. *)
Definition isGroupCallStatus (status : CallStatus) : bool :=
  bool_decide (status = GroupCallStatus.GenericGroupCall)
  || bool_decide (status = GroupCallStatus.OutgoingRing)
  || bool_decide (status = GroupCallStatus.Ringing)
  || bool_decide (status = GroupCallStatus.Joined)
  || bool_decide (status = GroupCallStatus.Accepted)
  || bool_decide (status = GroupCallStatus.Missed)
  || bool_decide (status = GroupCallStatus.Declined)
  || bool_decide (status = GroupCallStatus.Deleted).

(** The statuses whose timestamp only a corroborating remote event may
    refine. *)
Definition frozenStatus (status : CallStatus) : bool :=
  bool_decide (status = CallStatusValue.Accepted)
  || bool_decide (status = CallStatusValue.Joined)
  || bool_decide (status = CallStatusValue.JoinedAdhoc)
  || bool_decide (status = CallStatusValue.Declined).

(** Scenario E: joining an adhoc call, then replaying the event. *)
Definition scenarioE_prior : CallHistoryDetails.t :=
  scenarioHistory "7" "room" None CallMode.Adhoc CallType.Adhoc
    CallDirection.Incoming AdhocCallStatus.Pending 10.

Definition scenarioE_event : CallEventDetails.t :=
  scenarioEvent "7" "room" "join" None CallMode.Adhoc CallType.Adhoc
    CallDirection.Incoming (Local LocalCallEvent.Accepted) 20.

Definition scenarioE_next : CallHistoryDetails.t :=
  scenarioHistory "7" "room" None CallMode.Adhoc CallType.Adhoc
    CallDirection.Incoming AdhocCallStatus.Joined 20.

(** The call-history table holds every record under its own
    (callId, peerId). *)
Definition callHistoryKeyed (w : World) : Prop :=
  ∀ key callHistory,
    callHistoryTable w !! key = Some callHistory →
    key = (CallHistoryDetails.callId callHistory,
           CallHistoryDetails.peerId callHistory).

(** A world with one group conversation and one ringing group call. *)
Definition exampleConversation : Conversation.t :=
  Conversation.mk "conversation-1" Conversation.group None (Some "group-1")
    None.

Definition exampleCall : CallHistoryDetails.t :=
  scenarioHistory "7" "group-1" (Some "ringer") CallMode.Group CallType.Group
    CallDirection.Incoming GroupCallStatus.Ringing 500.

Definition exampleWorld : World :=
  mkWorld {["conversation-1" := "conversation-1"]}
    {["conversation-1" := exampleConversation]}
    {[("7", "group-1") := exampleCall]}
    ∅ ∅ 0 0 (Some "our-aci") [] [].

(** The same world, its directory resolving the group's peer id. *)
Definition examplePeerWorld : World :=
  mkWorld {["group-1" := "conversation-1"]}
    {["conversation-1" := exampleConversation]}
    {[("7", "group-1") := exampleCall]}
    ∅ ∅ 0 0 (Some "our-aci") [] [].

(** A world whose one conversation is a group without a groupId, and
    which holds no call history. *)
Definition exampleGroupWithoutId : Conversation.t :=
  Conversation.mk "conversation-2" Conversation.group None None None.

Definition exampleGroupWithoutIdWorld : World :=
  mkWorld {["conversation-2" := "conversation-2"]}
    {["conversation-2" := exampleGroupWithoutId]}
    ∅ ∅ ∅ 0 0 (Some "our-aci") [] [].

Definition exampleNotAccepted : CallEventDetails.t :=
  scenarioEvent "7" "group-1" "sync" None CallMode.Group CallType.Group
    CallDirection.Incoming (Remote RemoteCallEvent.NotAccepted) 600.

(** A local hangup of the ringing call of [examplePeerWorld]. *)
Definition exampleHangup : CallEventDetails.t :=
  scenarioEvent "7" "group-1" "hangup" (Some "ringer") CallMode.Group
    CallType.Group CallDirection.Incoming (Local LocalCallEvent.Hangup) 600.

(** ** Assertions about actions *)

(** [preserves I m]: running [m] keeps [I], whether it returns or
    throws. *)
Definition preserves {A} (I : World → Prop) (m : Action A) : Prop :=
  ∀ w, I w → I (m w).2.

(** [ensures I m Q]: from a world in [I], [m] returns a value in [Q] and
    keeps [I]. *)
Definition ensures {A} (I : World → Prop) (m : Action A) (Q : A → Prop)
    : Prop :=
  ∀ w, I w → I (m w).2 ∧ ∃ a, (m w).1 = Ok a ∧ Q a.

(** * Properties of the transition engine *)

(** The assertions on identical fields pass. *)
Ltac same_fields :=
  repeat match goal with
  | |- context [bool_decide (?a = ?a)] =>
      rewrite (bool_decide_eq_true_2 (a = a)) by reflexivity
  end;
  rewrite ?orb_true_r.

(** Scenario A: a first local Ringing event of a direct call creates a
    Pending record carrying the event's timestamp. *)
Example scenario_A callId peerId src ringerId :
  transitionCallHistory None
    (scenarioEvent callId peerId src ringerId CallMode.Direct CallType.Audio
       CallDirection.Incoming (Local LocalCallEvent.Ringing) 100)
  = Ok (scenarioHistory callId peerId ringerId CallMode.Direct CallType.Audio
          CallDirection.Incoming DirectCallStatus.Pending 100).
Proof. reflexivity. Qed.

(** Scenario C: a late local Missed event leaves an Accepted group call
    and its timestamp alone. *)
Example scenario_C callId peerId src ringerId direction :
  transitionCallHistory
    (Some (scenarioHistory callId peerId ringerId CallMode.Group
             CallType.Group direction GroupCallStatus.Accepted 500))
    (scenarioEvent callId peerId src ringerId CallMode.Group CallType.Group
       direction (Local LocalCallEvent.Missed) 400)
  = Ok (scenarioHistory callId peerId ringerId CallMode.Group CallType.Group
          direction GroupCallStatus.Accepted 500).
Proof.
  unfold transitionCallHistory, scenarioEvent, scenarioHistory; simpl.
  same_fields. reflexivity.
Qed.

(** Scenario D: a remote Accepted event refines the timestamp of an
    Accepted group call. *)
Example scenario_D callId peerId src ringerId direction :
  transitionCallHistory
    (Some (scenarioHistory callId peerId ringerId CallMode.Group
             CallType.Group direction GroupCallStatus.Accepted 500))
    (scenarioEvent callId peerId src ringerId CallMode.Group CallType.Group
       direction (Remote RemoteCallEvent.Accepted) 600)
  = Ok (scenarioHistory callId peerId ringerId CallMode.Group CallType.Group
          direction GroupCallStatus.Accepted 600).
Proof.
  unfold transitionCallHistory, scenarioEvent, scenarioHistory; simpl.
  same_fields. reflexivity.
Qed.

(** ** Structure of [transitionCallHistory] *)

Lemma transitionCallHistory_unfold callHistory callEvent :
  transitionCallHistory callHistory callEvent
  = (identityAssertions callHistory callEvent;;
     status ← transitionCallStatus (CallEventDetails.mode callEvent)
                (CallHistoryDetails.status <$> callHistory)
                (CallEventDetails.event callEvent)
                (CallEventDetails.direction callEvent);
     timestamp ← transitionTimestamp callHistory callEvent;
     Ok (CallHistoryDetails.mk
           (CallEventDetails.callId callEvent)
           (CallEventDetails.peerId callEvent)
           (CallEventDetails.ringerId callEvent)
           (CallEventDetails.mode callEvent)
           (CallEventDetails.type callEvent)
           (CallEventDetails.direction callEvent)
           timestamp status)).
Proof. reflexivity. Qed.

Lemma identityAssertions_result callHistory callEvent :
  identityAssertions (Some callHistory) callEvent = Ok tt
  ∨ ∃ message,
      identityAssertions (Some callHistory) callEvent
      = Err (AssertionError message).
Proof.
  unfold identityAssertions, strictAssert, mbind, result_bind.
  repeat match goal with
  | |- context [if ?b then Ok () else _] =>
      destruct b; simpl; [| right; eexists; reflexivity]
  end.
  by left.
Qed.

Lemma identityAssertions_Ok callHistory callEvent :
  identityAssertions (Some callHistory) callEvent = Ok tt
  ↔ sameCall callHistory callEvent.
Proof.
  unfold identityAssertions, sameCall, strictAssert, mbind, result_bind.
  repeat match goal with
  | |- context [bool_decide ?P] => destruct (bool_decide_reflect P); simpl
  end; split; try done; intuition congruence.
Qed.

Lemma transitionCallHistory_Ok_inv callHistory callEvent next :
  transitionCallHistory callHistory callEvent = Ok next →
  identityAssertions callHistory callEvent = Ok tt
  ∧ ∃ status timestamp,
      transitionCallStatus (CallEventDetails.mode callEvent)
        (CallHistoryDetails.status <$> callHistory)
        (CallEventDetails.event callEvent)
        (CallEventDetails.direction callEvent) = Ok status
      ∧ transitionTimestamp callHistory callEvent = Ok timestamp
      ∧ next = CallHistoryDetails.mk
                 (CallEventDetails.callId callEvent)
                 (CallEventDetails.peerId callEvent)
                 (CallEventDetails.ringerId callEvent)
                 (CallEventDetails.mode callEvent)
                 (CallEventDetails.type callEvent)
                 (CallEventDetails.direction callEvent)
                 timestamp status.
Proof.
  rewrite transitionCallHistory_unfold. unfold mbind, result_bind.
  destruct (identityAssertions _ _) as [[]|]; simpl; [| done].
  destruct (transitionCallStatus _ _ _ _) as [status|]; simpl; [| done].
  destruct (transitionTimestamp _ _) as [timestamp|]; simpl; [| done].
  intros [= <-]. eauto 6.
Qed.

Lemma transitionCallHistory_Ok_intro callHistory callEvent status timestamp :
  identityAssertions callHistory callEvent = Ok tt →
  transitionCallStatus (CallEventDetails.mode callEvent)
    (CallHistoryDetails.status <$> callHistory)
    (CallEventDetails.event callEvent)
    (CallEventDetails.direction callEvent) = Ok status →
  transitionTimestamp callHistory callEvent = Ok timestamp →
  transitionCallHistory callHistory callEvent
  = Ok (CallHistoryDetails.mk
          (CallEventDetails.callId callEvent)
          (CallEventDetails.peerId callEvent)
          (CallEventDetails.ringerId callEvent)
          (CallEventDetails.mode callEvent)
          (CallEventDetails.type callEvent)
          (CallEventDetails.direction callEvent)
          timestamp status).
Proof.
  rewrite transitionCallHistory_unfold. intros -> -> ->. reflexivity.
Qed.

(** ** Deletion *)

Lemma transitionDirectCallStatus_deleted status event direction :
  isDeleteEvent event = true ∨ status = Some DirectCallStatus.Deleted →
  transitionDirectCallStatus status event direction
  = Ok DirectCallStatus.Deleted.
Proof.
  unfold transitionDirectCallStatus, isDeleteEvent.
  intros [Hev | ->].
  - rewrite Hev. reflexivity.
  - rewrite orb_true_r. reflexivity.
Qed.

Lemma transitionGroupCallStatus_deleted status event direction :
  isDeleteEvent event = true ∨ status = Some GroupCallStatus.Deleted →
  transitionGroupCallStatus status event direction
  = Ok GroupCallStatus.Deleted.
Proof.
  unfold transitionGroupCallStatus, isDeleteEvent.
  intros [Hev | ->].
  - rewrite Hev. reflexivity.
  - rewrite orb_true_r. reflexivity.
Qed.

Lemma transitionAdhocCallStatus_deleted status event direction :
  isDeleteEvent event = true ∨ status = Some AdhocCallStatus.Deleted →
  transitionAdhocCallStatus status event direction
  = Ok AdhocCallStatus.Deleted.
Proof.
  unfold transitionAdhocCallStatus, isDeleteEvent.
  intros [Hev | ->].
  - rewrite Hev. reflexivity.
  - rewrite orb_true_r. reflexivity.
Qed.

Lemma transitionTimestamp_deleted callHistory callEvent :
  CallHistoryDetails.status callHistory = CallStatusValue.Deleted →
  transitionTimestamp (Some callHistory) callEvent
  = Ok (CallHistoryDetails.timestamp callHistory).
Proof.
  unfold transitionTimestamp. intros ->. reflexivity.
Qed.

(** C1.  Deletion is absorbing.  In every mode, for every prior status
    (or none), event and direction: when the event is a local or remote
    delete, or the prior status is the mode's Deleted value, the mode's
    transition function returns Deleted.  And when the prior record is
    Deleted, [transitionTimestamp] returns its timestamp unchanged. *)
Theorem deletion_is_absorbing :
  (∀ mode status event direction,
     isDeleteEvent event = true ∨ status = Some (deletedStatus mode) →
     match mode with
     | CallMode.Direct => transitionDirectCallStatus status event direction
     | CallMode.Group => transitionGroupCallStatus status event direction
     | CallMode.Adhoc => transitionAdhocCallStatus status event direction
     end = Ok (deletedStatus mode))
  ∧ (∀ callHistory callEvent,
       CallHistoryDetails.status callHistory
       = deletedStatus (CallHistoryDetails.mode callHistory) →
       transitionTimestamp (Some callHistory) callEvent
       = Ok (CallHistoryDetails.timestamp callHistory)).
Proof.
  split.
  - intros [] status event direction H; simpl in *.
    + by apply transitionDirectCallStatus_deleted.
    + by apply transitionGroupCallStatus_deleted.
    + by apply transitionAdhocCallStatus_deleted.
  - intros callHistory callEvent H.
    apply transitionTimestamp_deleted.
    rewrite H. by destruct (CallHistoryDetails.mode callHistory).
Qed.

Lemma deletion_is_absorbing_witness :
  transitionGroupCallStatus (Some GroupCallStatus.Deleted)
    (Local LocalCallEvent.Accepted) CallDirection.Incoming
  = Ok GroupCallStatus.Deleted
  ∧ transitionTimestamp
      (Some (scenarioHistory "7" "peer" None CallMode.Adhoc CallType.Adhoc
               CallDirection.Incoming AdhocCallStatus.Deleted 500))
      (scenarioEvent "7" "peer" "test" None CallMode.Adhoc CallType.Adhoc
         CallDirection.Incoming (Remote RemoteCallEvent.Accepted) 900)
    = Ok 500.
Proof.
  split.
  - apply (proj1 deletion_is_absorbing CallMode.Group). right. reflexivity.
  - apply (proj2 deletion_is_absorbing
             (scenarioHistory "7" "peer" None CallMode.Adhoc CallType.Adhoc
                CallDirection.Incoming AdhocCallStatus.Deleted 500)).
    reflexivity.
Defined.

(** A Deleted record stays Deleted with its timestamp under every event
    that passes the identity assertions. *)
Lemma transitionCallHistory_deleted callHistory callEvent next :
  CallHistoryDetails.status callHistory = CallStatusValue.Deleted →
  transitionCallHistory (Some callHistory) callEvent = Ok next →
  CallHistoryDetails.status next = CallStatusValue.Deleted
  ∧ CallHistoryDetails.timestamp next
    = CallHistoryDetails.timestamp callHistory.
Proof.
  intros Hdel Hnext.
  apply transitionCallHistory_Ok_inv in Hnext
    as (_ & status & timestamp & Hst & Hts & ->).
  rewrite transitionTimestamp_deleted in Hts by done.
  simpl in Hst. rewrite Hdel in Hst.
  destruct (CallEventDetails.mode callEvent); simpl in Hst;
    [ rewrite transitionDirectCallStatus_deleted in Hst
    | rewrite transitionGroupCallStatus_deleted in Hst
    | rewrite transitionAdhocCallStatus_deleted in Hst ];
    try (right; reflexivity);
    simplify_eq; done.
Qed.

(** ** Remote NotAccepted on group calls *)

(** C3 as stated fails: from a Deleted (or Accepted) group record the
    remote NotAccepted event raises nothing, the delete and sticky-accept
    checks come first. *)
Lemma group_not_accepted_counterexample :
  ¬ (∀ status direction,
       isGroupCallStatus status = true →
       is_ok (transitionGroupCallStatus (Some status)
                (Remote RemoteCallEvent.NotAccepted) direction) = false)
  ∧ transitionCallHistory
      (Some (scenarioHistory "7" "group" None CallMode.Group CallType.Group
               CallDirection.Incoming GroupCallStatus.Deleted 500))
      (scenarioEvent "7" "group" "sync" None CallMode.Group CallType.Group
         CallDirection.Incoming (Remote RemoteCallEvent.NotAccepted) 600)
    = Ok (scenarioHistory "7" "group" None CallMode.Group CallType.Group
            CallDirection.Incoming GroupCallStatus.Deleted 500).
Proof.
  split; [| reflexivity].
  intros H.
  specialize (H GroupCallStatus.Deleted CallDirection.Incoming eq_refl).
  discriminate H.
Qed.

(** C3, amended.  For every prior status other than Deleted and Accepted
    (no prior record included) and every direction, the group machine
    raises an error on a remote NotAccepted event; from Deleted it returns
    Deleted and from Accepted it returns Accepted. *)
Theorem group_not_accepted_raises status direction :
  (status ≠ Some GroupCallStatus.Deleted →
   status ≠ Some GroupCallStatus.Accepted →
   transitionGroupCallStatus status (Remote RemoteCallEvent.NotAccepted)
     direction
   = Err (Error "callHistoryDetails: Group calls shouldn't send NotAccepted"))
  ∧ transitionGroupCallStatus (Some GroupCallStatus.Deleted)
      (Remote RemoteCallEvent.NotAccepted) direction
    = Ok GroupCallStatus.Deleted
  ∧ transitionGroupCallStatus (Some GroupCallStatus.Accepted)
      (Remote RemoteCallEvent.NotAccepted) direction
    = Ok GroupCallStatus.Accepted.
Proof.
  split; [| split; reflexivity].
  intros Hdel Hacc. unfold transitionGroupCallStatus.
  rewrite (bool_decide_eq_false_2 _ Hdel), (bool_decide_eq_false_2 _ Hacc).
  reflexivity.
Qed.

Lemma group_not_accepted_raises_witness :
  transitionGroupCallStatus (Some GroupCallStatus.Ringing)
    (Remote RemoteCallEvent.NotAccepted) CallDirection.Incoming
  = Err (Error "callHistoryDetails: Group calls shouldn't send NotAccepted").
Proof.
  apply (proj1 (group_not_accepted_raises (Some GroupCallStatus.Ringing)
                  CallDirection.Incoming)); discriminate.
Defined.

(** ** Timestamp merge policy *)

(** C4.  From an accepted/joined prior status (Direct Accepted, Group
    Accepted, Group Joined, Adhoc Joined), [transitionTimestamp] returns
    max(event.timestamp, prior.timestamp) on the remote Accepted event and
    the prior timestamp unchanged on every other event. *)
Theorem accepted_timestamp_policy callHistory callEvent :
  CallHistoryDetails.status callHistory = DirectCallStatus.Accepted
  ∨ CallHistoryDetails.status callHistory = GroupCallStatus.Accepted
  ∨ CallHistoryDetails.status callHistory = GroupCallStatus.Joined
  ∨ CallHistoryDetails.status callHistory = AdhocCallStatus.Joined →
  transitionTimestamp (Some callHistory) callEvent
  = Ok (if bool_decide (CallEventDetails.event callEvent
                        = Remote RemoteCallEvent.Accepted)
        then Z.max (CallEventDetails.timestamp callEvent)
                   (CallHistoryDetails.timestamp callHistory)
        else CallHistoryDetails.timestamp callHistory).
Proof.
  unfold transitionTimestamp.
  intros [-> | [-> | [-> | ->]]]; simpl; by case_bool_decide.
Qed.

Lemma accepted_timestamp_policy_witness :
  transitionTimestamp
    (Some (scenarioHistory "7" "group" (Some "ringer") CallMode.Group
             CallType.Group CallDirection.Incoming
             GroupCallStatus.Accepted 500))
    (scenarioEvent "7" "group" "sync" None CallMode.Group CallType.Group
       CallDirection.Incoming (Remote RemoteCallEvent.Accepted) 600)
  = Ok 600.
Proof.
  apply (accepted_timestamp_policy
           (scenarioHistory "7" "group" (Some "ringer") CallMode.Group
              CallType.Group CallDirection.Incoming
              GroupCallStatus.Accepted 500)
           (scenarioEvent "7" "group" "sync" None CallMode.Group
              CallType.Group CallDirection.Incoming
              (Remote RemoteCallEvent.Accepted) 600)).
  right. left. reflexivity.
Defined.

(** C5.  From a transient prior status (Direct Pending or Missed, Group
    GenericGroupCall, OutgoingRing, Ringing or Missed, Adhoc Pending) the
    new timestamp is max(prior.timestamp, event.timestamp) for every
    event, so it is never below the prior timestamp; every record
    [transitionCallHistory] returns from such a prior record carries
    it. *)
Theorem transient_timestamp_is_max callHistory callEvent :
  CallHistoryDetails.status callHistory = DirectCallStatus.Pending
  ∨ CallHistoryDetails.status callHistory = DirectCallStatus.Missed
  ∨ CallHistoryDetails.status callHistory = GroupCallStatus.GenericGroupCall
  ∨ CallHistoryDetails.status callHistory = GroupCallStatus.OutgoingRing
  ∨ CallHistoryDetails.status callHistory = GroupCallStatus.Ringing
  ∨ CallHistoryDetails.status callHistory = GroupCallStatus.Missed
  ∨ CallHistoryDetails.status callHistory = AdhocCallStatus.Pending →
  ∃ timestamp,
    transitionTimestamp (Some callHistory) callEvent = Ok timestamp
    ∧ timestamp = Z.max (CallHistoryDetails.timestamp callHistory)
                        (CallEventDetails.timestamp callEvent)
    ∧ CallHistoryDetails.timestamp callHistory ≤ timestamp
    ∧ ∀ next,
        transitionCallHistory (Some callHistory) callEvent = Ok next →
        CallHistoryDetails.timestamp next = timestamp.
Proof.
  intros H.
  assert (Hts : transitionTimestamp (Some callHistory) callEvent
                = Ok (Z.max (CallHistoryDetails.timestamp callHistory)
                            (CallEventDetails.timestamp callEvent))).
  { unfold transitionTimestamp.
    destruct H as [-> | [-> | [-> | [-> | [-> | [-> | ->]]]]]]; simpl;
      by rewrite Z.max_comm. }
  eexists. split; [exact Hts |]. split; [reflexivity |]. split; [lia |].
  intros next Hnext.
  apply transitionCallHistory_Ok_inv in Hnext
    as (_ & status & timestamp & _ & Hts' & ->).
  simpl. congruence.
Qed.

Lemma transient_timestamp_is_max_witness :
  ∃ timestamp,
    transitionTimestamp
      (Some (scenarioHistory "7" "group" (Some "ringer") CallMode.Group
               CallType.Group CallDirection.Incoming
               GroupCallStatus.Ringing 500))
      (scenarioEvent "7" "group" "ring" (Some "ringer") CallMode.Group
         CallType.Group CallDirection.Incoming
         (Local LocalCallEvent.Missed) 400)
    = Ok timestamp
    ∧ timestamp = Z.max 500 400
    ∧ 500 ≤ timestamp
    ∧ ∀ next,
        transitionCallHistory
          (Some (scenarioHistory "7" "group" (Some "ringer") CallMode.Group
                   CallType.Group CallDirection.Incoming
                   GroupCallStatus.Ringing 500))
          (scenarioEvent "7" "group" "ring" (Some "ringer") CallMode.Group
             CallType.Group CallDirection.Incoming
             (Local LocalCallEvent.Missed) 400)
        = Ok next →
        CallHistoryDetails.timestamp next = timestamp.
Proof.
  apply (transient_timestamp_is_max
           (scenarioHistory "7" "group" (Some "ringer") CallMode.Group
              CallType.Group CallDirection.Incoming
              GroupCallStatus.Ringing 500)
           (scenarioEvent "7" "group" "ring" (Some "ringer") CallMode.Group
              CallType.Group CallDirection.Incoming
              (Local LocalCallEvent.Missed) 400)).
  do 4 right. left. reflexivity.
Defined.

(** ** Direct calls: hangups *)

(** C7.  In the direct machine, from every prior status other than
    Deleted and Accepted (no prior record included): local Hangup yields
    Declined for an incoming call and Missed for an outgoing one; local
    RemoteHangup yields Missed for an incoming call and Declined for an
    outgoing one.  Scenario B: a Pending record at 100 and an incoming
    local Hangup at 150 give a Declined record at 150. *)
Theorem direct_hangup_transitions status :
  status ≠ Some DirectCallStatus.Deleted →
  status ≠ Some DirectCallStatus.Accepted →
  transitionDirectCallStatus status (Local LocalCallEvent.Hangup)
    CallDirection.Incoming = Ok DirectCallStatus.Declined
  ∧ transitionDirectCallStatus status (Local LocalCallEvent.Hangup)
      CallDirection.Outgoing = Ok DirectCallStatus.Missed
  ∧ transitionDirectCallStatus status (Local LocalCallEvent.RemoteHangup)
      CallDirection.Incoming = Ok DirectCallStatus.Missed
  ∧ transitionDirectCallStatus status (Local LocalCallEvent.RemoteHangup)
      CallDirection.Outgoing = Ok DirectCallStatus.Declined
  ∧ ∀ callId peerId ringerId type eventSource,
      transitionCallHistory
        (Some (scenarioHistory callId peerId ringerId CallMode.Direct type
                 CallDirection.Incoming DirectCallStatus.Pending 100))
        (scenarioEvent callId peerId eventSource ringerId CallMode.Direct
           type CallDirection.Incoming (Local LocalCallEvent.Hangup) 150)
      = Ok (scenarioHistory callId peerId ringerId CallMode.Direct type
              CallDirection.Incoming DirectCallStatus.Declined 150).
Proof.
  intros Hdel Hacc. unfold transitionDirectCallStatus.
  rewrite (bool_decide_eq_false_2 _ Hdel), (bool_decide_eq_false_2 _ Hacc).
  repeat split.
  intros. unfold transitionCallHistory, scenarioEvent, scenarioHistory.
  simpl. same_fields. reflexivity.
Qed.

Lemma direct_hangup_transitions_witness :
  transitionDirectCallStatus (Some DirectCallStatus.Pending)
    (Local LocalCallEvent.Hangup) CallDirection.Incoming
  = Ok DirectCallStatus.Declined.
Proof.
  apply (direct_hangup_transitions (Some DirectCallStatus.Pending));
    discriminate.
Defined.

(** ** Identity immutability *)

(** C8.  When the event's callId, peerId, direction, type or mode differs
    from the prior record's, [transitionCallHistory] fails with an
    assertion error: no record is returned. *)
Theorem identity_mismatch_is_assertion_failure callHistory callEvent :
  CallHistoryDetails.callId callHistory ≠ CallEventDetails.callId callEvent
  ∨ CallHistoryDetails.peerId callHistory ≠ CallEventDetails.peerId callEvent
  ∨ CallHistoryDetails.direction callHistory
    ≠ CallEventDetails.direction callEvent
  ∨ CallHistoryDetails.type callHistory ≠ CallEventDetails.type callEvent
  ∨ CallHistoryDetails.mode callHistory ≠ CallEventDetails.mode callEvent →
  ∃ message,
    transitionCallHistory (Some callHistory) callEvent
    = Err (AssertionError message).
Proof.
  intros Hdiff. rewrite transitionCallHistory_unfold.
  destruct (identityAssertions_result callHistory callEvent)
    as [Hok | [message Hfail]].
  - apply identityAssertions_Ok in Hok.
    destruct Hok as (? & ? & ? & ? & ? & ?). tauto.
  - exists message. rewrite Hfail. reflexivity.
Qed.

Lemma identity_mismatch_is_assertion_failure_witness :
  ∃ message,
    transitionCallHistory
      (Some (scenarioHistory "7" "alice" None CallMode.Direct CallType.Audio
               CallDirection.Incoming DirectCallStatus.Pending 100))
      (scenarioEvent "7" "bob" "test" None CallMode.Direct CallType.Audio
         CallDirection.Incoming (Local LocalCallEvent.Accepted) 150)
    = Err (AssertionError message).
Proof.
  apply (identity_mismatch_is_assertion_failure
           (scenarioHistory "7" "alice" None CallMode.Direct CallType.Audio
              CallDirection.Incoming DirectCallStatus.Pending 100)
           (scenarioEvent "7" "bob" "test" None CallMode.Direct
              CallType.Audio CallDirection.Incoming
              (Local LocalCallEvent.Accepted) 150)).
  right. left. discriminate.
Defined.

(** ** The ringer of a call *)

(** C2 as stated fails: the resulting record takes its ringerId from the
    event, so a remote sync event (which carries no ringerId) on a record
    with a known ringer yields a record without one. *)
Lemma ringerId_preserved_counterexample :
  ¬ (∀ callHistory callEvent next,
       CallHistoryDetails.ringerId callHistory ≠ None →
       transitionCallHistory (Some callHistory) callEvent = Ok next →
       CallHistoryDetails.ringerId next
       = CallHistoryDetails.ringerId callHistory)
  ∧ transitionCallHistory
      (Some (scenarioHistory "7" "alice" (Some "alice") CallMode.Direct
               CallType.Audio CallDirection.Incoming
               DirectCallStatus.Pending 100))
      (scenarioEvent "7" "alice" "sync" None CallMode.Direct CallType.Audio
         CallDirection.Incoming (Remote RemoteCallEvent.Accepted) 150)
    = Ok (scenarioHistory "7" "alice" None CallMode.Direct CallType.Audio
            CallDirection.Incoming DirectCallStatus.Accepted 150).
Proof.
  split; [| reflexivity].
  intros H.
  specialize (H (scenarioHistory "7" "alice" (Some "alice") CallMode.Direct
                   CallType.Audio CallDirection.Incoming
                   DirectCallStatus.Pending 100)
                (scenarioEvent "7" "alice" "sync" None CallMode.Direct
                   CallType.Audio CallDirection.Incoming
                   (Remote RemoteCallEvent.Accepted) 150)
                _ ltac:(discriminate) eq_refl).
  discriminate H.
Qed.

(** C2, amended.  In a transition from a prior record: an event carrying
    a non-null ringerId succeeds only with the prior record's ringerId,
    which the resulting record then keeps; an event carrying a non-null
    ringerId different from the prior record's fails with the assertion
    error "ringerId must be same if it exists" once callId and peerId
    agree; and an event without a ringerId never fails that assertion:
    the identity assertions pass as soon as the other fields agree. *)
Theorem ringerId_never_replaced callHistory callEvent :
  (∀ next,
     CallEventDetails.ringerId callEvent ≠ None →
     transitionCallHistory (Some callHistory) callEvent = Ok next →
     CallHistoryDetails.ringerId next
     = CallHistoryDetails.ringerId callHistory)
  ∧ (CallEventDetails.ringerId callEvent ≠ None →
     CallEventDetails.ringerId callEvent
     ≠ CallHistoryDetails.ringerId callHistory →
     (∃ message,
        transitionCallHistory (Some callHistory) callEvent
        = Err (AssertionError message))
     ∧ (CallHistoryDetails.callId callHistory
        = CallEventDetails.callId callEvent →
        CallHistoryDetails.peerId callHistory
        = CallEventDetails.peerId callEvent →
        transitionCallHistory (Some callHistory) callEvent
        = Err (AssertionError "ringerId must be same if it exists")))
  ∧ (CallEventDetails.ringerId callEvent = None →
     CallHistoryDetails.callId callHistory
     = CallEventDetails.callId callEvent →
     CallHistoryDetails.peerId callHistory
     = CallEventDetails.peerId callEvent →
     CallHistoryDetails.direction callHistory
     = CallEventDetails.direction callEvent →
     CallHistoryDetails.type callHistory = CallEventDetails.type callEvent →
     CallHistoryDetails.mode callHistory = CallEventDetails.mode callEvent →
     identityAssertions (Some callHistory) callEvent = Ok tt).
Proof.
  split; [| split].
  - intros next Hsome Hnext.
    apply transitionCallHistory_Ok_inv in Hnext
      as (Hid & status & timestamp & _ & _ & ->).
    apply identityAssertions_Ok in Hid as (_ & _ & [Hnone | Heq] & _);
      [done | by simpl].
  - intros Hsome Hdiff. split.
    + destruct (identityAssertions_result callHistory callEvent)
        as [Hok | [message Hfail]].
      * apply identityAssertions_Ok in Hok as (_ & _ & [? | ?] & _);
          congruence.
      * exists message.
        rewrite transitionCallHistory_unfold, Hfail. reflexivity.
    + intros Hcall Hpeer. rewrite transitionCallHistory_unfold.
      unfold identityAssertions.
      rewrite (bool_decide_eq_true_2 _ Hcall), (bool_decide_eq_true_2 _ Hpeer).
      rewrite (bool_decide_eq_false_2 _ Hsome).
      rewrite (bool_decide_eq_false_2
                 (CallHistoryDetails.ringerId callHistory
                  = CallEventDetails.ringerId callEvent)) by congruence.
      reflexivity.
  - intros. apply identityAssertions_Ok. unfold sameCall. tauto.
Qed.

Lemma ringerId_never_replaced_witness :
  transitionCallHistory
    (Some (scenarioHistory "7" "alice" (Some "alice") CallMode.Direct
             CallType.Audio CallDirection.Incoming
             DirectCallStatus.Pending 100))
    (scenarioEvent "7" "alice" "ring" (Some "mallory") CallMode.Direct
       CallType.Audio CallDirection.Incoming
       (Local LocalCallEvent.Accepted) 150)
  = Err (AssertionError "ringerId must be same if it exists").
Proof.
  apply (proj1 (proj2 (ringerId_never_replaced
           (scenarioHistory "7" "alice" (Some "alice") CallMode.Direct
              CallType.Audio CallDirection.Incoming
              DirectCallStatus.Pending 100)
           (scenarioEvent "7" "alice" "ring" (Some "mallory") CallMode.Direct
              CallType.Audio CallDirection.Incoming
              (Local LocalCallEvent.Accepted) 150)))).
  - discriminate.
  - discriminate.
  - reflexivity.
  - reflexivity.
Defined.

(** ** Replaying an event *)

(** The status machines are idempotent: the status an event leads to is
    a fixed point of that event. *)
Lemma transitionCallStatus_replay mode status event direction :
  match transitionCallStatus mode status event direction with
  | Ok next => transitionCallStatus mode (Some next) event direction = Ok next
  | Err _ => True
  end.
Proof.
  destruct mode, status as [[]|], event as [[]|[]], direction;
    first [exact I | reflexivity].
Qed.

Lemma transitionCallStatus_idempotent mode status event direction next :
  transitionCallStatus mode status event direction = Ok next →
  transitionCallStatus mode (Some next) event direction = Ok next.
Proof.
  intros H.
  pose proof (transitionCallStatus_replay mode status event direction) as R.
  by rewrite H in R.
Qed.

Lemma transitionTimestamp_Some_cases callHistory callEvent :
  transitionTimestamp (Some callHistory) callEvent
  = Ok (CallHistoryDetails.timestamp callHistory)
  ∨ transitionTimestamp (Some callHistory) callEvent
    = Ok (Z.max (CallEventDetails.timestamp callEvent)
                (CallHistoryDetails.timestamp callHistory)).
Proof.
  unfold transitionTimestamp.
  destruct (CallHistoryDetails.status callHistory),
    (CallEventDetails.event callEvent) as [[]|[]]; simpl; auto.
Qed.

Lemma transitionTimestamp_transient callHistory callEvent :
  frozenStatus (CallHistoryDetails.status callHistory) = false →
  CallHistoryDetails.status callHistory ≠ CallStatusValue.Deleted →
  transitionTimestamp (Some callHistory) callEvent
  = Ok (Z.max (CallEventDetails.timestamp callEvent)
              (CallHistoryDetails.timestamp callHistory)).
Proof.
  unfold transitionTimestamp.
  destruct (CallHistoryDetails.status callHistory); simpl; done.
Qed.

(** Replaying an event on a record with the status and the timestamp the
    event led to from a record of that same status changes nothing. *)
Lemma transitionTimestamp_replay callHistory callEvent timestamp next :
  transitionTimestamp (Some callHistory) callEvent = Ok timestamp →
  CallHistoryDetails.status next = CallHistoryDetails.status callHistory →
  CallHistoryDetails.timestamp next = timestamp →
  transitionTimestamp (Some next) callEvent = Ok timestamp.
Proof.
  unfold transitionTimestamp. intros H -> Hts. simpl in *.
  destruct (CallHistoryDetails.status callHistory),
    (CallEventDetails.event callEvent) as [[]|[]];
    simpl in *; injection H as H; f_equal; lia.
Qed.

(** C6 as stated fails: a Joined group call that receives a later local
    Missed event becomes Missed with its old timestamp; replaying the
    event on that Missed record moves the timestamp to the event's. *)
Lemma idempotence_counterexample :
  ¬ (∀ callHistory callEvent next,
       transitionCallHistory callHistory callEvent = Ok next →
       transitionCallHistory (Some next) callEvent = Ok next)
  ∧ transitionCallHistory
      (Some (scenarioHistory "7" "group" None CallMode.Group CallType.Group
               CallDirection.Incoming GroupCallStatus.Joined 500))
      (scenarioEvent "7" "group" "ring" None CallMode.Group CallType.Group
         CallDirection.Incoming (Local LocalCallEvent.Missed) 600)
    = Ok (scenarioHistory "7" "group" None CallMode.Group CallType.Group
            CallDirection.Incoming GroupCallStatus.Missed 500)
  ∧ transitionCallHistory
      (Some (scenarioHistory "7" "group" None CallMode.Group CallType.Group
               CallDirection.Incoming GroupCallStatus.Missed 500))
      (scenarioEvent "7" "group" "ring" None CallMode.Group CallType.Group
         CallDirection.Incoming (Local LocalCallEvent.Missed) 600)
    = Ok (scenarioHistory "7" "group" None CallMode.Group CallType.Group
            CallDirection.Incoming GroupCallStatus.Missed 600).
Proof.
  split; [| split; reflexivity].
  intros H.
  specialize (H (Some (scenarioHistory "7" "group" None CallMode.Group
                         CallType.Group CallDirection.Incoming
                         GroupCallStatus.Joined 500))
                (scenarioEvent "7" "group" "ring" None CallMode.Group
                   CallType.Group CallDirection.Incoming
                   (Local LocalCallEvent.Missed) 600)
                _ eq_refl).
  discriminate H.
Qed.

(** C6, amended.  When a first transition succeeds, applying the same
    event to its result succeeds as well and yields a record with the
    same identity fields and the same status, whose timestamp is the
    first result's or the event's later one.  The two records are equal
    when there was no prior record, when the first transition left the
    status unchanged, when the prior status was not one of Accepted,
    Joined or Declined, or when the event's timestamp is not later than
    the first result's.  A third application changes nothing any more. *)
Theorem replay_keeps_status callHistory callEvent next :
  transitionCallHistory callHistory callEvent = Ok next →
  ∃ again,
    transitionCallHistory (Some next) callEvent = Ok again
    ∧ again = CallHistoryDetails.with_timestamp next
                (CallHistoryDetails.timestamp again)
    ∧ (CallHistoryDetails.timestamp again
       = CallHistoryDetails.timestamp next
       ∨ CallHistoryDetails.timestamp again
         = CallEventDetails.timestamp callEvent
         ∧ CallHistoryDetails.timestamp next
           < CallEventDetails.timestamp callEvent)
    ∧ (callHistory = None
       ∨ CallHistoryDetails.status <$> callHistory
         = Some (CallHistoryDetails.status next)
       ∨ frozenStatus <$> (CallHistoryDetails.status <$> callHistory)
         = Some false
       ∨ CallEventDetails.timestamp callEvent
         ≤ CallHistoryDetails.timestamp next →
       again = next)
    ∧ transitionCallHistory (Some again) callEvent = Ok again.
Proof.
  intros Hnext.
  apply transitionCallHistory_Ok_inv in Hnext
    as (_ & status & timestamp & Hst & Hts & ->).
  set (next := CallHistoryDetails.mk _ _ _ _ _ _ timestamp status).
  assert (Hid : ∀ ts,
            identityAssertions
              (Some (CallHistoryDetails.with_timestamp next ts)) callEvent
            = Ok tt).
  { intros ts. apply identityAssertions_Ok. unfold sameCall. simpl. tauto. }
  pose proof Hst as Hfirst.
  apply transitionCallStatus_idempotent in Hst.
  assert (Hstep : ∀ ts again,
            transitionTimestamp
              (Some (CallHistoryDetails.with_timestamp next ts)) callEvent
            = Ok again →
            transitionCallHistory
              (Some (CallHistoryDetails.with_timestamp next ts)) callEvent
            = Ok (CallHistoryDetails.with_timestamp next again)).
  { intros ts again Hagain.
    by rewrite (transitionCallHistory_Ok_intro _ _ status again). }
  destruct (transitionTimestamp_Some_cases next callEvent) as [Hts2 | Hts2].
  - (* the second application keeps the timestamp *)
    exists next. pose proof (Hstep timestamp timestamp Hts2) as Hagain.
    change (CallHistoryDetails.with_timestamp next timestamp) with next
      in Hagain.
    repeat split; auto.
  - (* the second application takes the later timestamp *)
    set (again := Z.max (CallEventDetails.timestamp callEvent) timestamp)
      in Hts2.
    exists (CallHistoryDetails.with_timestamp next again).
    pose proof (Hstep timestamp again Hts2) as Hagain.
    change (CallHistoryDetails.with_timestamp next timestamp) with next
      in Hagain.
    split; [exact Hagain |]. split; [reflexivity |].
    split; [simpl; subst again; lia |].
    split.
    + intros Hcond.
      enough (again = timestamp) as -> by reflexivity.
      destruct Hcond as [-> | [Hsame | [Hfrozen | Hle]]].
      * simpl in Hts. injection Hts as <-. subst again. lia.
      * destruct callHistory as [prior|]; [| done].
        simpl in Hsame. injection Hsame as Hsame.
        pose proof (transitionTimestamp_replay prior callEvent timestamp
                      next Hts (eq_sym Hsame) eq_refl) as Hsame2.
        rewrite Hsame2 in Hts2. by injection Hts2.
      * destruct callHistory as [prior|]; [| done].
        simpl in Hfrozen. injection Hfrozen as Hfrozen.
        destruct (decide (CallHistoryDetails.status prior
                          = CallStatusValue.Deleted)) as [Hdel | Hdel].
        -- rewrite transitionTimestamp_deleted in Hts by done.
           injection Hts as <-.
           assert (status = CallStatusValue.Deleted) as Hstatus.
           { simpl in Hfirst. rewrite Hdel in Hfirst.
             destruct (CallEventDetails.mode callEvent); simpl in Hfirst;
               [ rewrite transitionDirectCallStatus_deleted in Hfirst
               | rewrite transitionGroupCallStatus_deleted in Hfirst
               | rewrite transitionAdhocCallStatus_deleted in Hfirst ];
               try (right; reflexivity); by injection Hfirst. }
           rewrite transitionTimestamp_deleted in Hts2 by done.
           by injection Hts2.
        -- rewrite transitionTimestamp_transient in Hts by done.
           injection Hts as <-. subst again. lia.
      * simpl in Hle. subst again. lia.
    + apply Hstep.
      apply (transitionTimestamp_replay next callEvent again); auto.
Qed.

Example scenario_E :
  transitionCallHistory (Some scenarioE_prior) scenarioE_event
  = Ok scenarioE_next
  ∧ transitionCallHistory (Some scenarioE_next) scenarioE_event
    = Ok scenarioE_next.
Proof. split; reflexivity. Qed.

Lemma replay_keeps_status_witness :
  ∃ again,
    transitionCallHistory (Some scenarioE_next) scenarioE_event = Ok again
    ∧ again = CallHistoryDetails.with_timestamp scenarioE_next
                (CallHistoryDetails.timestamp again)
    ∧ (CallHistoryDetails.timestamp again
       = CallHistoryDetails.timestamp scenarioE_next
       ∨ CallHistoryDetails.timestamp again
         = CallEventDetails.timestamp scenarioE_event
         ∧ CallHistoryDetails.timestamp scenarioE_next
           < CallEventDetails.timestamp scenarioE_event)
    ∧ (Some scenarioE_prior = None
       ∨ CallHistoryDetails.status <$> Some scenarioE_prior
         = Some (CallHistoryDetails.status scenarioE_next)
       ∨ frozenStatus <$> (CallHistoryDetails.status <$> Some scenarioE_prior)
         = Some false
       ∨ CallEventDetails.timestamp scenarioE_event
         ≤ CallHistoryDetails.timestamp scenarioE_next →
       again = scenarioE_next)
    ∧ transitionCallHistory (Some again) scenarioE_event = Ok again.
Proof.
  apply (replay_keeps_status (Some scenarioE_prior) scenarioE_event
           scenarioE_next).
  reflexivity.
Defined.

(** ** Reasoning about actions *)

Lemma preserves_bind {A B} I (m : Action A) (k : A → Action B) :
  preserves I m → (∀ a, preserves I (k a)) → preserves I (m ≫= k).
Proof.
  intros Hm Hk w Hw. unfold mbind, action_bind.
  specialize (Hm w Hw). destruct (m w) as [[a | e] w']; simpl in *.
  - by apply Hk.
  - done.
Qed.

Lemma preserves_ret {A} I (a : A) : preserves I (mret a).
Proof. by intros w Hw. Qed.

Lemma preserves_tryCatch {A} I (m : Action A) handler :
  preserves I m → (∀ e, preserves I (handler e)) →
  preserves I (tryCatch m handler).
Proof.
  intros Hm Hh w Hw. unfold tryCatch.
  specialize (Hm w Hw). destruct (m w) as [[a | e] w']; simpl in *.
  - done.
  - by apply Hh.
Qed.

Lemma ensures_bind {A B} I (m : Action A) (k : A → Action B) Q R :
  ensures I m Q → (∀ a, Q a → ensures I (k a) R) → ensures I (m ≫= k) R.
Proof.
  intros Hm Hk w Hw. unfold mbind, action_bind.
  destruct (Hm w Hw) as (Hw' & a & Ha & HQ).
  destruct (m w) as [r w']; simpl in *. subst r.
  by apply Hk.
Qed.

Lemma ensures_ret {A} I (a : A) (Q : A → Prop) : Q a → ensures I (mret a) Q.
Proof. intros HQ w Hw. split; [done |]. by exists a. Qed.

Lemma bind_ret_world {A B} (m : Action A) (f : A → B) w :
  ((a ← m; mret (f a)) w).2 = (m w).2.
Proof. unfold mbind, action_bind. by destruct (m w) as [[] ?]. Qed.

Lemma bind_ret_result {A B} (m : Action A) (f : A → B) w a :
  (m w).1 = Ok a → ((a ← m; mret (f a)) w).1 = Ok (f a).
Proof.
  unfold mbind, action_bind. destruct (m w) as [[] ?]; simpl; congruence.
Qed.

(** The primitive actions, one field at a time. *)
Ltac primitive :=
  unfold ConversationController_get, Data_getCallHistory,
    Data_saveCallHistory, removeCallHistory, addCallHistory,
    Data_getCallHistoryMessageByCallId, Data_removeMessage, Data_saveMessage,
    Conversation_update, generateGuid, incrementMessageCounter,
    getCheckedAci, log_error, throw, lift, gets, modify,
    mbind, mret, action_bind, action_ret.

Ltac preserves_steps :=
  repeat first
    [ apply preserves_ret
    | apply preserves_bind; [| intros ?]
    | apply preserves_tryCatch; [| intros ?]
    | match goal with
      | |- preserves _ (if ?b then _ else _) => destruct b
      | |- preserves _ (match ?x with _ => _ end) => destruct x
      end ];
  try (intros ? ?; primitive; simpl; repeat case_match; simpl; done).

Ltac ensures_steps :=
  repeat first
    [ apply ensures_ret; try done
    | apply (ensures_bind _ _ _ (λ _, True)); [| intros ? _]
    | match goal with
      | |- ensures _ (if ?b then _ else _) _ => destruct b
      | |- ensures _ (match ?x with _ => _ end) _ => destruct x
      end ].

(** ** The outbound sync gate *)

(** A record whose status has no wire event leaves the world as it is. *)
Lemma updateRemoteCallHistory_not_synced
    uuidToBytes Bytes_fromBase64 Long_fromString Long_fromNumber
    callHistory w :
  shouldSyncStatus (CallHistoryDetails.status callHistory) = false →
  updateRemoteCallHistory uuidToBytes Bytes_fromBase64 Long_fromString
    Long_fromNumber callHistory w
  = (Ok tt, w).
Proof. unfold updateRemoteCallHistory. intros ->. reflexivity. Qed.


(** A record whose status has a wire event enqueues nothing, and one
    error is logged, when the local account is unknown or the callId is
    not read. *)
Lemma updateRemoteCallHistory_failed
    uuidToBytes Bytes_fromBase64 Long_fromString Long_fromNumber
    callHistory w :
  shouldSyncStatus (CallHistoryDetails.status callHistory) = true →
  ourAci w = None
  ∨ is_ok (Long_fromString (CallHistoryDetails.callId callHistory)) = false →
  updateRemoteCallHistory uuidToBytes Bytes_fromBase64 Long_fromString
    Long_fromNumber callHistory w
  = (Ok tt,
     with_errorLog
       (λ l, (l ++ ["updateRemoteCallHistory: Failed to queue sync message:"])
             %list) w).
Proof.
  intros Hsync Hfail.
  unfold updateRemoteCallHistory, getProtoForCallHistory, getCheckedAci.
  rewrite Hsync. unfold shouldSyncStatus in Hsync.
  destruct (statusToProto _) as [event |]; [| discriminate Hsync].
  unfold tryCatch. primitive. simpl.
  destruct (ourAci w) as [aci |]; simpl; [| reflexivity].
  destruct Hfail as [Hfail | Hfail]; [discriminate Hfail |].
  destruct (Long_fromString _); [discriminate Hfail | reflexivity].
Qed.

(** C9.  [shouldSyncStatus] holds exactly for Accepted, Declined, Deleted
    and JoinedAdhoc, whose wire events are ACCEPTED, NOT_ACCEPTED, DELETE
    and ACCEPTED; for a record whose status is Pending, Missed, Ringing,
    GenericGroupCall, OutgoingRing or Joined it is false and
    [updateRemoteCallHistory] enqueues nothing: the world, its job queue
    included, is unchanged. *)
Theorem sync_only_settled_statuses :
  (∀ status,
     shouldSyncStatus status = true
     ↔ status = CallStatusValue.Accepted
       ∨ status = CallStatusValue.Declined
       ∨ status = CallStatusValue.Deleted
       ∨ status = CallStatusValue.JoinedAdhoc)
  ∧ statusToProto CallStatusValue.Accepted = Some Proto.ACCEPTED
  ∧ statusToProto CallStatusValue.Declined = Some Proto.NOT_ACCEPTED
  ∧ statusToProto CallStatusValue.Deleted = Some Proto.DELETE
  ∧ statusToProto CallStatusValue.JoinedAdhoc = Some Proto.ACCEPTED
  ∧ (∀ uuidToBytes Bytes_fromBase64 Long_fromString Long_fromNumber
       callHistory w,
       CallHistoryDetails.status callHistory = CallStatusValue.Pending
       ∨ CallHistoryDetails.status callHistory = CallStatusValue.Missed
       ∨ CallHistoryDetails.status callHistory = CallStatusValue.Ringing
       ∨ CallHistoryDetails.status callHistory
         = CallStatusValue.GenericGroupCall
       ∨ CallHistoryDetails.status callHistory = CallStatusValue.OutgoingRing
       ∨ CallHistoryDetails.status callHistory = CallStatusValue.Joined →
       shouldSyncStatus (CallHistoryDetails.status callHistory) = false
       ∧ updateRemoteCallHistory uuidToBytes Bytes_fromBase64
           Long_fromString Long_fromNumber callHistory w
         = (Ok tt, w)
       ∧ jobQueue
           (updateRemoteCallHistory uuidToBytes Bytes_fromBase64
              Long_fromString Long_fromNumber callHistory w).2
         = jobQueue w).
Proof.
  split; [| repeat split; try reflexivity].
  - intros []; unfold shouldSyncStatus; simpl; split; intros H;
      try done; try tauto;
      destruct H as [H | [H | [H | H]]]; discriminate H.
  - destruct H as [-> | [-> | [-> | [-> | [-> | ->]]]]]; reflexivity.
  - rewrite updateRemoteCallHistory_not_synced; [reflexivity |].
    destruct H as [-> | [-> | [-> | [-> | [-> | ->]]]]]; reflexivity.
  - rewrite updateRemoteCallHistory_not_synced; [reflexivity |].
    destruct H as [-> | [-> | [-> | [-> | [-> | ->]]]]]; reflexivity.
Qed.

Lemma sync_only_settled_statuses_witness :
  shouldSyncStatus (CallHistoryDetails.status exampleCall) = false
  ∧ updateRemoteCallHistory (λ _, []) (λ _, []) (λ _, Ok 7) (λ n, n)
      exampleCall exampleWorld
    = (Ok tt, exampleWorld)
  ∧ jobQueue
      (updateRemoteCallHistory (λ _, []) (λ _, []) (λ _, Ok 7) (λ n, n)
         exampleCall exampleWorld).2
    = jobQueue exampleWorld.
Proof.
  destruct sync_only_settled_statuses as (_ & _ & _ & _ & _ & H).
  apply (H (λ _, []) (λ _, []) (λ _, Ok 7) (λ n, n) exampleCall
           exampleWorld).
  right. right. left. reflexivity.
Defined.

(** ** Lowering the timestamp of a group call *)

Section SaveCallHistory.
Context (maxSeenStatus : SeenStatus.t → SeenStatus.t → SeenStatus.t)
  (guid : nat → string)
  (incrementSentMessageCount incrementMessageCount
     : Conversation.t → Conversation.t).

(** [saveCallHistory] writes the record it is given under its own
    (callId, peerId), and nothing else, into the call-history table. *)
Lemma saveCallHistory_table callHistory conversationId counter ms w :
  callHistoryTable
    (saveCallHistory maxSeenStatus guid incrementSentMessageCount
       incrementMessageCount callHistory conversationId counter ms w).2
  = <[(CallHistoryDetails.callId callHistory,
       CallHistoryDetails.peerId callHistory) := callHistory]>
      (callHistoryTable w).
Proof.
  unfold saveCallHistory.
  match goal with
  | |- callHistoryTable ((Data_saveCallHistory ?h ≫= ?k) w).2 = ?T =>
      change ((Data_saveCallHistory h ≫= k) w)
        with (k tt (with_callHistoryTable
                      (<[(CallHistoryDetails.callId h,
                          CallHistoryDetails.peerId h) := h]>) w));
      enough (Hk : preserves (λ w', callHistoryTable w' = T) (k tt))
        by (apply Hk; reflexivity)
  end.
  cbv beta. preserves_steps.
Qed.

(** It returns that record, unless the local account is unknown when the
    call-history message is written. *)
Lemma saveCallHistory_result callHistory conversationId counter ms w :
  is_Some (ourAci w)
  ∨ CallHistoryDetails.status callHistory = CallStatusValue.Deleted →
  (saveCallHistory maxSeenStatus guid incrementSentMessageCount
     incrementMessageCount callHistory conversationId counter ms w).1
  = Ok callHistory.
Proof.
  intros Hcase.
  enough (He : ensures
                 (λ w, is_Some (ourAci w)
                       ∨ CallHistoryDetails.status callHistory
                         = CallStatusValue.Deleted)
                 (saveCallHistory maxSeenStatus guid
                    incrementSentMessageCount incrementMessageCount
                    callHistory conversationId counter ms)
                 (λ r, r = callHistory)).
  { destruct (He w Hcase) as (_ & a & -> & ->). reflexivity. }
  clear w Hcase. unfold saveCallHistory.
  destruct (bool_decide_reflect
              (CallHistoryDetails.status callHistory
               = DirectCallStatus.Deleted)) as [Hdel | Hdel]; simpl.
  - ensures_steps;
      try (intros w Hw; primitive; simpl; split; [done | by eexists]).
  - ensures_steps.
    all: try (intros w [[aci Haci] | Hw]; [| done];
              primitive; simpl; rewrite ?Haci; simpl;
              split; [left; by eexists | by eexists]).
Qed.

End SaveCallHistory.

(** C10 as stated fails: with no prior record the function does not
    always return null.  In a world that stores no call history, for a
    group conversation without a groupId, it throws the assertion of
    [getPeerIdFromConversation]. *)
Lemma group_timestamp_null_counterexample :
  callHistoryTable exampleGroupWithoutIdWorld = ∅
  ∧ updateLocalGroupCallHistoryTimestamp (λ _, true) (λ a _, a)
      (λ _, "guid") (λ c, c) (λ c, c) "conversation-2" "7" 400
      exampleGroupWithoutIdWorld
    = (Err (AssertionError "groupId must exist for group chat"),
       exampleGroupWithoutIdWorld)
  ∧ ¬ (∀ isAciString maxSeenStatus guid incrementSentMessageCount
         incrementMessageCount conversationId callId timestamp w,
         (∀ peerId, callHistoryTable w !! (callId, peerId) = None) →
         (updateLocalGroupCallHistoryTimestamp isAciString maxSeenStatus
            guid incrementSentMessageCount incrementMessageCount
            conversationId callId timestamp w).1
         = Ok None).
Proof.
  split; [reflexivity |]. split; [reflexivity |].
  intros H.
  specialize (H (λ _, true) (λ a _, a) (λ _, "guid") (λ c, c) (λ c, c)
                "conversation-2" "7" 400 exampleGroupWithoutIdWorld
                (λ _, eq_refl)).
  discriminate H.
Qed.

(** C10, amended.  [updateLocalGroupCallHistoryTimestamp] returns null
    and leaves the world alone when the conversation is unknown or no
    prior record is stored under the call id and the conversation's peer
    id (it never creates a record); when the conversation has no peer id
    it throws the assertion of [getPeerIdFromConversation] and leaves the
    world alone; it returns the prior record, saving nothing, when the
    given timestamp is greater than or equal to the stored one; and when
    it is strictly smaller it saves, and returns, the record whose
    timestamp is the given value and whose other fields are those of the
    prior record.  So every stored record keeps its fields, and its
    timestamp is either kept or lowered to the given value. *)
Theorem group_timestamp_only_lowered
    isAciString maxSeenStatus guid incrementSentMessageCount
    incrementMessageCount conversationId callId timestamp w :
  let run :=
    updateLocalGroupCallHistoryTimestamp isAciString maxSeenStatus guid
      incrementSentMessageCount incrementMessageCount
      conversationId callId timestamp w in
  (findConversation w conversationId = None → run = (Ok None, w))
  ∧ (∀ conversation,
       findConversation w conversationId = Some conversation →
       (∀ error,
          getPeerIdFromConversation isAciString conversation = Err error →
          run = (Err error, w))
       ∧ (∀ peerId,
            getPeerIdFromConversation isAciString conversation = Ok peerId →
            (callHistoryTable w !! (callId, peerId) = None →
             run = (Ok None, w))
            ∧ (∀ prev,
                 callHistoryTable w !! (callId, peerId) = Some prev →
                 (CallHistoryDetails.timestamp prev ≤ timestamp →
                  run = (Ok (Some prev), w))
                 ∧ (timestamp < CallHistoryDetails.timestamp prev →
                    let updated :=
                      CallHistoryDetails.mk
                        (CallHistoryDetails.callId prev)
                        (CallHistoryDetails.peerId prev)
                        (CallHistoryDetails.ringerId prev)
                        (CallHistoryDetails.mode prev)
                        (CallHistoryDetails.type prev)
                        (CallHistoryDetails.direction prev)
                        timestamp
                        (CallHistoryDetails.status prev) in
                    callHistoryTable run.2
                    = <[(CallHistoryDetails.callId prev,
                         CallHistoryDetails.peerId prev) := updated]>
                        (callHistoryTable w)
                    ∧ (is_Some (ourAci w)
                       ∨ CallHistoryDetails.status prev
                         = CallStatusValue.Deleted →
                       run.1 = Ok (Some updated))))))
  ∧ (callHistoryKeyed w →
     ∀ key prev,
       callHistoryTable w !! key = Some prev →
       ∃ next,
         callHistoryTable run.2 !! key = Some next
         ∧ CallHistoryDetails.callId next = CallHistoryDetails.callId prev
         ∧ CallHistoryDetails.peerId next = CallHistoryDetails.peerId prev
         ∧ CallHistoryDetails.ringerId next
           = CallHistoryDetails.ringerId prev
         ∧ CallHistoryDetails.mode next = CallHistoryDetails.mode prev
         ∧ CallHistoryDetails.type next = CallHistoryDetails.type prev
         ∧ CallHistoryDetails.direction next
           = CallHistoryDetails.direction prev
         ∧ CallHistoryDetails.status next = CallHistoryDetails.status prev
         ∧ CallHistoryDetails.timestamp next
           ≤ CallHistoryDetails.timestamp prev
         ∧ (CallHistoryDetails.timestamp next
            = CallHistoryDetails.timestamp prev
            ∨ CallHistoryDetails.timestamp next = timestamp)).
Proof.
  intros run.
  assert (Hnone : findConversation w conversationId = None →
                  run = (Ok None, w)).
  { intros H. subst run. unfold updateLocalGroupCallHistoryTimestamp.
    primitive. simpl. by rewrite H. }
  assert (Hsome : ∀ conversation peerId,
            findConversation w conversationId = Some conversation →
            getPeerIdFromConversation isAciString conversation = Ok peerId →
            run = match callHistoryTable w !! (callId, peerId) with
                  | None => (Ok None, w)
                  | Some prev =>
                      if timestamp >=? CallHistoryDetails.timestamp prev
                      then (Ok (Some prev), w)
                      else
                        (updatedCallHistory ←
                           saveCallHistory maxSeenStatus guid
                             incrementSentMessageCount incrementMessageCount
                             (CallHistoryDetails.with_timestamp prev
                                timestamp)
                             (Conversation.id conversation) None None;
                         mret (Some updatedCallHistory)) w
                  end).
  { intros conversation peerId Hconv Hpeer. subst run.
    unfold updateLocalGroupCallHistoryTimestamp.
    unfold ConversationController_get, Data_getCallHistory, lift, gets.
    unfold mbind at 1, action_bind at 1. rewrite Hconv.
    unfold mbind at 1, action_bind at 1. rewrite Hpeer.
    unfold mbind at 1, action_bind at 1.
    destruct (callHistoryTable w !! (callId, peerId)) as [prev |];
      [| reflexivity].
    by destruct (timestamp >=? CallHistoryDetails.timestamp prev). }
  assert (Hfail : ∀ conversation e,
            findConversation w conversationId = Some conversation →
            getPeerIdFromConversation isAciString conversation = Err e →
            run = (Err e, w)).
  { intros conversation e Hconv Hpeer. subst run.
    unfold updateLocalGroupCallHistoryTimestamp.
    unfold ConversationController_get, lift, gets.
    unfold mbind at 1, action_bind at 1. rewrite Hconv.
    unfold mbind at 1, action_bind at 1. by rewrite Hpeer. }
  split; [exact Hnone |]. split.
  - intros conversation Hconv. split; [intros e; by apply Hfail |].
    intros peerId Hpeer.
    specialize (Hsome conversation peerId Hconv Hpeer).
    split.
    + intros Hprev. by rewrite Hprev in Hsome.
    + intros prev Hprev. rewrite Hprev in Hsome. split.
      * intros Hle.
        by destruct (Z.geb_spec timestamp (CallHistoryDetails.timestamp prev));
          [| lia].
      * intros Hlt.
        destruct (Z.geb_spec timestamp (CallHistoryDetails.timestamp prev));
          [lia |].
        rewrite Hsome. cbv zeta. split.
        -- rewrite bind_ret_world, saveCallHistory_table. reflexivity.
        -- intros Haci.
           apply (bind_ret_result
                    (saveCallHistory maxSeenStatus guid
                       incrementSentMessageCount incrementMessageCount
                       (CallHistoryDetails.with_timestamp prev timestamp)
                       (Conversation.id conversation) None None) Some).
           apply saveCallHistory_result. exact Haci.
  - intros Hkeyed key prev Hkey.
    destruct (findConversation w conversationId) as [conversation |] eqn:Hconv;
      [| rewrite Hnone by done; exists prev; simpl;
         split_and!; first [done | lia | by left]].
    destruct (getPeerIdFromConversation isAciString conversation)
      as [peerId | e] eqn:Hpeer;
      [| rewrite (Hfail conversation e) by done;
         exists prev; simpl; split_and!; first [done | lia | by left]].
    rewrite (Hsome conversation peerId) by done.
    destruct (callHistoryTable w !! (callId, peerId)) as [stored |] eqn:Hstored;
      [| exists prev; simpl; split_and!; first [done | lia | by left]].
    destruct (Z.geb_spec timestamp (CallHistoryDetails.timestamp stored))
      as [Hle | Hlt];
      [exists prev; simpl; split_and!; first [done | lia | by left] |].
    rewrite bind_ret_world, saveCallHistory_table.
    change (CallHistoryDetails.callId
              (CallHistoryDetails.with_timestamp stored timestamp))
      with (CallHistoryDetails.callId stored).
    change (CallHistoryDetails.peerId
              (CallHistoryDetails.with_timestamp stored timestamp))
      with (CallHistoryDetails.peerId stored).
    pose proof (Hkeyed _ _ Hstored) as Hk.
    destruct (decide (key = (callId, peerId))) as [-> | Hne].
    + rewrite Hstored in Hkey. injection Hkey as <-.
      rewrite <- Hk, lookup_insert_eq.
      eexists. split; [reflexivity |]. simpl.
      split_and!; first [done | lia | by right].
    + rewrite <- Hk, lookup_insert_ne by done.
      exists prev. split_and!; first [done | lia | by left].
Qed.

Lemma group_timestamp_only_lowered_witness :
  let run :=
    updateLocalGroupCallHistoryTimestamp (λ _, true) (λ a _, a)
      (λ _, "guid") (λ c, c) (λ c, c) "conversation-1" "7" 400
      exampleWorld in
  let updated :=
    CallHistoryDetails.mk "7" "group-1" (Some "ringer") CallMode.Group
      CallType.Group CallDirection.Incoming 400 GroupCallStatus.Ringing in
  callHistoryTable run.2
  = <[("7", "group-1") := updated]> (callHistoryTable exampleWorld)
  ∧ run.1 = Ok (Some updated).
Proof.
  intros run updated.
  destruct (group_timestamp_only_lowered (λ _, true) (λ a _, a)
              (λ _, "guid") (λ c, c) (λ c, c) "conversation-1" "7" 400
              exampleWorld)
    as (_ & Hfound & _).
  destruct (Hfound exampleConversation eq_refl) as (_ & Hpeer).
  destruct (Hpeer "group-1" eq_refl) as (_ & Hprev).
  destruct (Hprev exampleCall eq_refl) as (_ & Hlower).
  destruct (Hlower ltac:(simpl; lia)) as (Htable & Hresult).
  split; [exact Htable |].
  apply Hresult. left. by eexists.
Defined.

(** * Further properties *)

(** ** The status machines *)

Lemma transitionCallStatus_cases mode status event direction :
  match transitionCallStatus mode status event direction with
  | Ok next =>
      isStatusOfMode mode next = true
      ∧ (next = CallStatusValue.OutgoingRing →
         status = Some CallStatusValue.OutgoingRing)
  | Err error =>
      (mode = CallMode.Group
       ∧ event = Remote RemoteCallEvent.NotAccepted
       ∧ error
         = Error "callHistoryDetails: Group calls shouldn't send NotAccepted")
      ∨ (∃ previous,
           status = Some previous ∧ isStatusOfMode mode previous = false)
  end.
Proof.
  destruct mode, status as [[]|], event as [[]|[]], direction;
    vm_compute; first [by split | by left | right; by eexists].
Qed.

(** X1.  Whatever the prior record holds, the status of a record
    [transitionCallHistory] returns is a member of the status enumeration
    of the record's mode. *)
Theorem transition_status_of_mode callHistory callEvent next :
  transitionCallHistory callHistory callEvent = Ok next →
  CallHistoryDetails.mode next = CallEventDetails.mode callEvent
  ∧ isStatusOfMode (CallHistoryDetails.mode next)
      (CallHistoryDetails.status next) = true.
Proof.
  intros Hnext.
  apply transitionCallHistory_Ok_inv in Hnext
    as (_ & status & timestamp & Hst & _ & ->).
  split; [reflexivity |]. simpl.
  pose proof (transitionCallStatus_cases (CallEventDetails.mode callEvent)
                (CallHistoryDetails.status <$> callHistory)
                (CallEventDetails.event callEvent)
                (CallEventDetails.direction callEvent)) as Hcases.
  rewrite Hst in Hcases. tauto.
Qed.

Lemma transition_status_of_mode_witness :
  CallHistoryDetails.mode scenarioE_next
  = CallEventDetails.mode scenarioE_event
  ∧ isStatusOfMode (CallHistoryDetails.mode scenarioE_next)
      (CallHistoryDetails.status scenarioE_next) = true.
Proof.
  apply (transition_status_of_mode (Some scenarioE_prior) scenarioE_event
           scenarioE_next).
  reflexivity.
Defined.

(** X2.  No transition enters the OutgoingRing status: a status machine
    returns it only when the prior status already was OutgoingRing. *)
Theorem outgoing_ring_never_entered mode status event direction :
  transitionCallStatus mode status event direction
  = Ok GroupCallStatus.OutgoingRing →
  status = Some GroupCallStatus.OutgoingRing
  ∧ mode = CallMode.Group
  ∧ isAcceptedEvent event = true.
Proof.
  destruct mode, status as [[]|], event as [[]|[]], direction;
    vm_compute; intros H; first [discriminate H | done].
Qed.

Lemma outgoing_ring_never_entered_witness :
  Some GroupCallStatus.OutgoingRing = Some GroupCallStatus.OutgoingRing
  ∧ CallMode.Group = CallMode.Group
  ∧ isAcceptedEvent (Local LocalCallEvent.Accepted) = true.
Proof.
  apply (outgoing_ring_never_entered CallMode.Group
           (Some GroupCallStatus.OutgoingRing)
           (Local LocalCallEvent.Accepted) CallDirection.Outgoing).
  reflexivity.
Defined.

(** X3.  With no prior record, or a prior record of the event's call
    whose status belongs to its mode, [transitionCallHistory] fails in
    one case only: a remote NotAccepted event on a group call that is
    neither Deleted nor Accepted.  The exhaustiveness errors are never
    reached. *)
Theorem transition_fails_only_on_group_not_accepted callHistory callEvent :
  (∀ prior,
     callHistory = Some prior →
     sameCall prior callEvent
     ∧ isStatusOfMode (CallEventDetails.mode callEvent)
         (CallHistoryDetails.status prior) = true) →
  is_ok (transitionCallHistory callHistory callEvent) = false
  ↔ CallEventDetails.mode callEvent = CallMode.Group
    ∧ CallEventDetails.event callEvent = Remote RemoteCallEvent.NotAccepted
    ∧ CallHistoryDetails.status <$> callHistory
      ≠ Some GroupCallStatus.Deleted
    ∧ CallHistoryDetails.status <$> callHistory
      ≠ Some GroupCallStatus.Accepted.
Proof.
  intros Hprior.
  assert (Hid : identityAssertions callHistory callEvent = Ok tt).
  { destruct callHistory as [prior |]; [| reflexivity].
    apply identityAssertions_Ok. by apply Hprior. }
  assert (Hmode : ∀ previous,
            CallHistoryDetails.status <$> callHistory = Some previous →
            isStatusOfMode (CallEventDetails.mode callEvent) previous = true).
  { intros previous Hprev. destruct callHistory as [prior |]; [| done].
    injection Hprev as <-. by apply Hprior. }
  rewrite transitionCallHistory_unfold, Hid.
  assert (Hts : ∃ timestamp,
            transitionTimestamp callHistory callEvent = Ok timestamp).
  { destruct callHistory as [prior |]; [| by eexists].
    destruct (transitionTimestamp_Some_cases prior callEvent) as [-> | ->];
      by eexists. }
  destruct Hts as [timestamp ->].
  generalize dependent (CallHistoryDetails.status <$> callHistory).
  intros status Hmode.
  destruct (CallEventDetails.mode callEvent), status as [[]|],
    (CallEventDetails.event callEvent) as [[]|[]],
    (CallEventDetails.direction callEvent);
    try (specialize (Hmode _ eq_refl); discriminate Hmode);
    vm_compute; split; try done; intros (? & ? & ? & ?); done.
Qed.

Lemma transition_fails_only_on_group_not_accepted_witness :
  is_ok (transitionCallHistory (Some scenarioE_prior) scenarioE_event) = false
  ↔ CallEventDetails.mode scenarioE_event = CallMode.Group
    ∧ CallEventDetails.event scenarioE_event
      = Remote RemoteCallEvent.NotAccepted
    ∧ CallHistoryDetails.status <$> Some scenarioE_prior
      ≠ Some GroupCallStatus.Deleted
    ∧ CallHistoryDetails.status <$> Some scenarioE_prior
      ≠ Some GroupCallStatus.Accepted.
Proof.
  apply (transition_fails_only_on_group_not_accepted (Some scenarioE_prior)
           scenarioE_event).
  intros prior [= <-]. split; [| reflexivity].
  unfold sameCall. simpl. tauto.
Defined.

(** X4.  [transitionCallHistory] never lowers the timestamp of a record,
    and never moves it past the later of the record's and the event's. *)
Theorem transition_never_lowers_timestamp callHistory callEvent next :
  transitionCallHistory (Some callHistory) callEvent = Ok next →
  CallHistoryDetails.timestamp callHistory
  ≤ CallHistoryDetails.timestamp next
  ∧ CallHistoryDetails.timestamp next
    ≤ Z.max (CallHistoryDetails.timestamp callHistory)
            (CallEventDetails.timestamp callEvent).
Proof.
  intros Hnext.
  apply transitionCallHistory_Ok_inv in Hnext
    as (_ & status & timestamp & _ & Hts & ->).
  simpl.
  destruct (transitionTimestamp_Some_cases callHistory callEvent) as [H | H];
    rewrite H in Hts; injection Hts as <-; lia.
Qed.

Lemma transition_never_lowers_timestamp_witness :
  CallHistoryDetails.timestamp scenarioE_prior
  ≤ CallHistoryDetails.timestamp scenarioE_next
  ∧ CallHistoryDetails.timestamp scenarioE_next
    ≤ Z.max (CallHistoryDetails.timestamp scenarioE_prior)
            (CallEventDetails.timestamp scenarioE_event).
Proof.
  apply (transition_never_lowers_timestamp scenarioE_prior scenarioE_event
           scenarioE_next).
  reflexivity.
Defined.

(** ** Sequences of events *)

Lemma transitionCallStatus_deleted mode status event direction :
  isDeleteEvent event = true ∨ status = Some CallStatusValue.Deleted →
  transitionCallStatus mode status event direction
  = Ok CallStatusValue.Deleted.
Proof.
  intros H. destruct mode; simpl.
  - by apply transitionDirectCallStatus_deleted.
  - by apply transitionGroupCallStatus_deleted.
  - by apply transitionAdhocCallStatus_deleted.
Qed.

Lemma transitionCallStatus_accepted mode status event direction :
  mode ≠ CallMode.Group →
  isDeleteEvent event = false →
  status ≠ Some CallStatusValue.Deleted →
  isAcceptedEvent event = true ∨ status = Some (acceptedStatus mode) →
  transitionCallStatus mode status event direction
  = Ok (acceptedStatus mode).
Proof.
  intros Hmode Hdelete Hstatus Haccepted.
  destruct mode; [| done |];
    destruct event as [[]|[]]; try discriminate Hdelete;
    destruct status as [[]|]; try done;
    destruct Haccepted as [Hev | Hst];
    first [discriminate Hev | discriminate Hst | reflexivity].
Qed.

Lemma transitionCallStatus_kept_alive mode status event direction :
  mode ≠ CallMode.Group →
  isDeleteEvent event = false →
  status ≠ Some CallStatusValue.Deleted →
  ∃ next,
    transitionCallStatus mode status event direction = Ok next
    ∧ next ≠ CallStatusValue.Deleted.
Proof.
  intros Hmode Hdelete Hstatus.
  destruct mode; [| done |];
    destruct event as [[]|[]]; try discriminate Hdelete;
    destruct status as [[]|], direction; try done;
    vm_compute; by eexists.
Qed.

(** X5.  In the direct and adhoc machines an Accepted event dominates:
    a sequence of events without a delete event that contains a local or
    remote Accepted event, run from any status but Deleted, ends in
    Accepted (direct) or Joined (adhoc), wherever in the sequence the
    Accepted event arrives. *)
Theorem accepted_event_dominates mode status events direction :
  mode ≠ CallMode.Group →
  status ≠ Some CallStatusValue.Deleted →
  Forall (λ event, isDeleteEvent event = false) events →
  Exists (λ event, isAcceptedEvent event = true) events →
  transitionCallStatuses mode status events direction
  = Ok (Some (acceptedStatus mode)).
Proof.
  intros Hmode Hstatus Hnodelete Haccepted.
  assert (Hgoal : status = Some (acceptedStatus mode)
                  ∨ Exists (λ event, isAcceptedEvent event = true) events)
    by (by right).
  clear Haccepted. revert status Hstatus Hgoal.
  induction Hnodelete as [| event events Hevent Hevents IH];
    intros status Hstatus Hgoal; simpl.
  - destruct Hgoal as [-> | Hex]; [reflexivity | inversion Hex].
  - destruct (decide (isAcceptedEvent event = true
                      ∨ status = Some (acceptedStatus mode)))
      as [Hnow | Hlater].
    + rewrite transitionCallStatus_accepted by done. simpl.
      apply IH; [by destruct mode | by left].
    + destruct (transitionCallStatus_kept_alive mode status event direction)
        as (next & -> & Hnext); try done.
      simpl. apply IH; [congruence |].
      destruct Hgoal as [-> | Hex]; [tauto |].
      inversion Hex; subst; [tauto | by right].
Qed.

Lemma accepted_event_dominates_witness :
  transitionCallStatuses CallMode.Direct None
    [Local LocalCallEvent.Ringing; Remote RemoteCallEvent.Accepted;
     Local LocalCallEvent.Missed; Local LocalCallEvent.Hangup]
    CallDirection.Incoming
  = Ok (Some DirectCallStatus.Accepted).
Proof.
  apply (accepted_event_dominates CallMode.Direct None
           [Local LocalCallEvent.Ringing; Remote RemoteCallEvent.Accepted;
            Local LocalCallEvent.Missed; Local LocalCallEvent.Hangup]
           CallDirection.Incoming).
  - discriminate.
  - discriminate.
  - repeat constructor.
  - apply Exists_cons_tl, Exists_cons_hd. reflexivity.
Defined.

(** The group machine has no such rule: a group call joined from scratch
    is Missed again after a later local Missed event. *)
Example group_joined_is_not_kept :
  transitionCallStatuses CallMode.Group None
    [Local LocalCallEvent.Accepted; Local LocalCallEvent.Missed]
    CallDirection.Incoming
  = Ok (Some GroupCallStatus.Missed).
Proof. reflexivity. Qed.

(** X6.  A delete event settles a sequence: from a Deleted status every
    sequence of events runs without error and ends Deleted, in every
    mode; and a sequence that contains a delete event ends Deleted
    whenever it runs without error, which it always does in the direct
    and adhoc machines. *)
Theorem delete_event_settles mode status events direction :
  (status = Some CallStatusValue.Deleted →
   transitionCallStatuses mode status events direction
   = Ok (Some CallStatusValue.Deleted))
  ∧ (Exists (λ event, isDeleteEvent event = true) events →
     (∀ final,
        transitionCallStatuses mode status events direction = Ok final →
        final = Some CallStatusValue.Deleted)
     ∧ (mode ≠ CallMode.Group →
        transitionCallStatuses mode status events direction
        = Ok (Some CallStatusValue.Deleted))).
Proof.
  assert (Hdeleted : ∀ events,
            transitionCallStatuses mode (Some CallStatusValue.Deleted)
              events direction
            = Ok (Some CallStatusValue.Deleted)).
  { clear events. induction events as [| event events IH]; [done |].
    simpl. rewrite transitionCallStatus_deleted by (by right). exact IH. }
  split; [by intros -> |].
  intros Hex. revert status.
  induction Hex as [event events Hevent | event events Hex IH];
    intros status.
  - simpl. rewrite transitionCallStatus_deleted by (by left). simpl.
    rewrite Hdeleted. split; [by intros final [= <-] | done].
  - simpl. split.
    + intros final.
      destruct (transitionCallStatus mode status event direction)
        as [next |]; simpl; [| done].
      apply IH.
    + intros Hmode.
      destruct (decide (isDeleteEvent event = true
                        ∨ status = Some CallStatusValue.Deleted))
        as [Hnow | Hlater].
      * rewrite transitionCallStatus_deleted by done. apply Hdeleted.
      * destruct (transitionCallStatus_kept_alive mode status event
                    direction) as (next & -> & _); try done.
        -- destruct (isDeleteEvent event); tauto.
        -- tauto.
        -- simpl. by apply IH.
Qed.

Lemma delete_event_settles_witness :
  transitionCallStatuses CallMode.Group (Some GroupCallStatus.Deleted)
    [Remote RemoteCallEvent.NotAccepted; Local LocalCallEvent.Accepted]
    CallDirection.Incoming
  = Ok (Some CallStatusValue.Deleted)
  ∧ transitionCallStatuses CallMode.Adhoc None
      [Local LocalCallEvent.Accepted; Remote RemoteCallEvent.Delete;
       Local LocalCallEvent.Accepted]
      CallDirection.Incoming
    = Ok (Some CallStatusValue.Deleted).
Proof.
  split.
  - apply (proj1 (delete_event_settles CallMode.Group
                    (Some GroupCallStatus.Deleted)
                    [Remote RemoteCallEvent.NotAccepted;
                     Local LocalCallEvent.Accepted]
                    CallDirection.Incoming)).
    reflexivity.
  - apply (proj2 (delete_event_settles CallMode.Adhoc None
                    [Local LocalCallEvent.Accepted;
                     Remote RemoteCallEvent.Delete;
                     Local LocalCallEvent.Accepted]
                    CallDirection.Incoming)).
    + apply Exists_cons_tl, Exists_cons_hd. reflexivity.
    + discriminate.
Defined.

(** ** Sync events: encoding, decoding, applying *)

Lemma getProtoForCallHistory_Ok_inv
    uuidToBytes Bytes_fromBase64 Long_fromString Long_fromNumber
    callHistory proto :
  getProtoForCallHistory uuidToBytes Bytes_fromBase64 Long_fromString
    Long_fromNumber callHistory = Ok proto →
  statusToProto (CallHistoryDetails.status callHistory)
  = Some (Proto.event proto)
  ∧ Proto.type proto = typeToProto (CallHistoryDetails.type callHistory)
  ∧ Proto.direction proto
    = directionToProto (CallHistoryDetails.direction callHistory)
  ∧ Long_fromString (CallHistoryDetails.callId callHistory)
    = Ok (Proto.callId proto)
  ∧ Proto.timestamp proto
    = Long_fromNumber (CallHistoryDetails.timestamp callHistory).
Proof.
  unfold getProtoForCallHistory.
  destruct (statusToProto _) as [event |]; [| done].
  destruct (Long_fromString _) as [callId | error]; [| done].
  by intros [= <-].
Qed.

(** X7.  Every decoded sync event is a remote event without a ringer
    whose mode follows from its type (Group for GROUP_CALL, Adhoc for
    AD_HOC_CALL, Direct otherwise); decoding fails with a TypeError
    exactly when the type, the direction or the event of the message is
    unknown, and reports the first of them in that order. *)
Theorem decoded_event_shape callEvent eventSource :
  match getCallEventForProto callEvent eventSource with
  | inr details =>
      is_Some (NormalizedCallEvent.type callEvent)
      ∧ is_Some (NormalizedCallEvent.direction callEvent)
      ∧ is_Some (NormalizedCallEvent.event callEvent)
      ∧ CallEventDetails.ringerId details = None
      ∧ (∃ event, CallEventDetails.event details = Remote event)
      ∧ CallEventDetails.mode details
        = match CallEventDetails.type details with
          | CallType.Group => CallMode.Group
          | CallType.Adhoc => CallMode.Adhoc
          | CallType.Audio | CallType.Video => CallMode.Direct
          end
      ∧ CallEventDetails.callId details = NormalizedCallEvent.callId callEvent
      ∧ CallEventDetails.peerId details = NormalizedCallEvent.peerId callEvent
      ∧ CallEventDetails.timestamp details
        = NormalizedCallEvent.timestamp callEvent
  | inl UnknownCallType => NormalizedCallEvent.type callEvent = None
  | inl UnknownCallDirection =>
      is_Some (NormalizedCallEvent.type callEvent)
      ∧ NormalizedCallEvent.direction callEvent = None
  | inl UnknownCallEvent =>
      is_Some (NormalizedCallEvent.type callEvent)
      ∧ is_Some (NormalizedCallEvent.direction callEvent)
      ∧ NormalizedCallEvent.event callEvent = None
  end.
Proof.
  unfold getCallEventForProto.
  destruct (NormalizedCallEvent.type callEvent) as [[]|],
    (NormalizedCallEvent.direction callEvent) as [[]|],
    (NormalizedCallEvent.event callEvent) as [[]|];
    simpl; eauto 12.
Qed.

(** X8.  Round trip of the enumerated fields: when
    [getProtoForCallHistory] encodes a record, [getCallEventForProto]
    decodes the message without error, whatever the schema makes of its
    identifiers and timestamp, into a remote event of the record's type
    and direction, of the mode of that type, and of the kind
    [statusToProto] gives the record's status. *)
Theorem sync_event_round_trip
    uuidToBytes Bytes_fromBase64 Long_fromString Long_fromNumber
    callHistory proto callId peerId timestamp eventSource :
  getProtoForCallHistory uuidToBytes Bytes_fromBase64 Long_fromString
    Long_fromNumber callHistory = Ok proto →
  ∃ details,
    getCallEventForProto (normalizedOfProto callId peerId timestamp proto)
      eventSource
    = inr details
    ∧ CallEventDetails.type details = CallHistoryDetails.type callHistory
    ∧ CallEventDetails.direction details
      = CallHistoryDetails.direction callHistory
    ∧ CallEventDetails.mode details
      = match CallHistoryDetails.type callHistory with
        | CallType.Group => CallMode.Group
        | CallType.Adhoc => CallMode.Adhoc
        | CallType.Audio | CallType.Video => CallMode.Direct
        end
    ∧ statusToProto (CallHistoryDetails.status callHistory)
      = Some (Proto.event proto)
    ∧ CallEventDetails.event details
      = Remote (remoteEventOfProto (Proto.event proto)).
Proof.
  intros Hproto.
  apply getProtoForCallHistory_Ok_inv in Hproto
    as (Hevent & Htype & Hdirection & _ & _).
  unfold getCallEventForProto, normalizedOfProto. simpl.
  rewrite Htype, Hdirection.
  destruct (CallHistoryDetails.type callHistory),
    (CallHistoryDetails.direction callHistory), (Proto.event proto);
    simpl; eexists; split_and!; done.
Qed.

Lemma sync_event_round_trip_witness :
  ∃ details,
    getCallEventForProto
      (normalizedOfProto "7" "room" 20
         (Proto.mkCallEvent [] 7 Proto.AD_HOC_CALL Proto.INCOMING
            Proto.ACCEPTED 20))
      "sync"
    = inr details
    ∧ CallEventDetails.type details = CallHistoryDetails.type scenarioE_next
    ∧ CallEventDetails.direction details
      = CallHistoryDetails.direction scenarioE_next
    ∧ CallEventDetails.mode details = CallMode.Adhoc
    ∧ statusToProto (CallHistoryDetails.status scenarioE_next)
      = Some Proto.ACCEPTED
    ∧ CallEventDetails.event details
      = Remote (remoteEventOfProto Proto.ACCEPTED).
Proof.
  apply (sync_event_round_trip (λ _, []) (λ _, []) (λ _, Ok 7) (λ n, n)
           scenarioE_next
           (Proto.mkCallEvent [] 7 Proto.AD_HOC_CALL Proto.INCOMING
              Proto.ACCEPTED 20)
           "7" "room" 20 "sync").
  reflexivity.
Defined.

(** What a linked device makes of the sync event of a record. *)
Lemma decoded_sync_event
    uuidToBytes Bytes_fromBase64 Long_fromString Long_fromNumber
    sender proto callId peerId timestamp eventSource details :
  getProtoForCallHistory uuidToBytes Bytes_fromBase64 Long_fromString
    Long_fromNumber sender = Ok proto →
  getCallEventForProto (normalizedOfProto callId peerId timestamp proto)
    eventSource
  = inr details →
  ∃ event,
    statusToProto (CallHistoryDetails.status sender) = Some event
    ∧ CallEventDetails.event details = Remote (remoteEventOfProto event)
    ∧ CallEventDetails.mode details
      = match CallHistoryDetails.type sender with
        | CallType.Group => CallMode.Group
        | CallType.Adhoc => CallMode.Adhoc
        | CallType.Audio | CallType.Video => CallMode.Direct
        end.
Proof.
  intros Hproto.
  apply getProtoForCallHistory_Ok_inv in Hproto
    as (Hevent & Htype & Hdirection & _ & _).
  unfold getCallEventForProto, normalizedOfProto. simpl.
  rewrite Htype, Hdirection.
  destruct (CallHistoryDetails.type sender),
    (CallHistoryDetails.direction sender), (Proto.event proto);
    simpl; intros [= <-]; eexists; split_and!; done.
Qed.

(** X9.  Applying the sync event of a record on a linked device: the
    event of a Deleted record leaves the receiver's record Deleted; the
    event of an Accepted direct call or of a Joined adhoc call leaves the
    receiver's record with that same status unless it was Deleted. *)
Theorem synced_status_converges
    uuidToBytes Bytes_fromBase64 Long_fromString Long_fromNumber
    sender proto callId peerId timestamp eventSource details receiver next :
  getProtoForCallHistory uuidToBytes Bytes_fromBase64 Long_fromString
    Long_fromNumber sender = Ok proto →
  getCallEventForProto (normalizedOfProto callId peerId timestamp proto)
    eventSource
  = inr details →
  transitionCallHistory receiver details = Ok next →
  (CallHistoryDetails.status sender = CallStatusValue.Deleted →
   CallHistoryDetails.status next = CallStatusValue.Deleted)
  ∧ (CallEventDetails.mode details ≠ CallMode.Group →
     CallHistoryDetails.status sender
     = acceptedStatus (CallEventDetails.mode details) →
     CallHistoryDetails.status <$> receiver ≠ Some CallStatusValue.Deleted →
     CallHistoryDetails.status next = CallHistoryDetails.status sender).
Proof.
  intros Hproto Hdecode Hnext.
  destruct (decoded_sync_event _ _ _ _ _ _ _ _ _ _ _ Hproto Hdecode)
    as (event & Hevent & Hremote & _).
  apply transitionCallHistory_Ok_inv in Hnext
    as (_ & status & ts & Hst & _ & ->).
  simpl. rewrite Hremote in Hst. split.
  - intros Hdeleted. rewrite Hdeleted in Hevent. injection Hevent as <-.
    rewrite transitionCallStatus_deleted in Hst by (by left).
    by injection Hst.
  - intros Hmode Haccepted Hreceiver.
    rewrite Haccepted in Hevent |- *.
    assert (event = Proto.ACCEPTED) as ->.
    { destruct (CallEventDetails.mode details); [| done |];
        simpl in Hevent; by injection Hevent. }
    rewrite transitionCallStatus_accepted in Hst; try done.
    + by injection Hst.
    + by left.
Qed.

Lemma synced_status_converges_witness :
  (CallHistoryDetails.status scenarioE_next = CallStatusValue.Deleted →
   CallHistoryDetails.status scenarioE_next = CallStatusValue.Deleted)
  ∧ (CallMode.Adhoc ≠ CallMode.Group →
     CallHistoryDetails.status scenarioE_next
     = acceptedStatus CallMode.Adhoc →
     CallHistoryDetails.status <$> Some scenarioE_prior
     ≠ Some CallStatusValue.Deleted →
     CallHistoryDetails.status scenarioE_next
     = CallHistoryDetails.status scenarioE_next).
Proof.
  apply (synced_status_converges (λ _, []) (λ _, []) (λ _, Ok 7) (λ n, n)
           scenarioE_next
           (Proto.mkCallEvent [] 7 Proto.AD_HOC_CALL Proto.INCOMING
              Proto.ACCEPTED 20)
           "7" "room" 20 "sync"
           (scenarioEvent "7" "room" "sync" None CallMode.Adhoc
              CallType.Adhoc CallDirection.Incoming
              (Remote RemoteCallEvent.Accepted) 20)
           (Some scenarioE_prior) scenarioE_next);
    reflexivity.
Defined.

(** X10.  A Declined group call is encoded exactly when its callId is
    read as a [Long], and then as NOT_ACCEPTED; a linked device running
    this module decodes that event and rejects it: applied to no record,
    or to a record of the same call that is neither Deleted nor Accepted,
    [transitionCallHistory] raises the group NotAccepted error. *)
Theorem synced_group_decline_is_rejected
    uuidToBytes Bytes_fromBase64 Long_fromString Long_fromNumber
    sender callId peerId timestamp eventSource receiver :
  CallHistoryDetails.type sender = CallType.Group →
  CallHistoryDetails.status sender = GroupCallStatus.Declined →
  (∀ prior,
     receiver = Some prior →
     CallHistoryDetails.status prior ≠ GroupCallStatus.Deleted
     ∧ CallHistoryDetails.status prior ≠ GroupCallStatus.Accepted) →
  is_ok (getProtoForCallHistory uuidToBytes Bytes_fromBase64
           Long_fromString Long_fromNumber sender)
  = is_ok (Long_fromString (CallHistoryDetails.callId sender))
  ∧ ∀ proto,
      getProtoForCallHistory uuidToBytes Bytes_fromBase64 Long_fromString
        Long_fromNumber sender = Ok proto →
      Proto.event proto = Proto.NOT_ACCEPTED
      ∧ ∃ details,
          getCallEventForProto
            (normalizedOfProto callId peerId timestamp proto) eventSource
          = inr details
          ∧ ((∀ prior, receiver = Some prior → sameCall prior details) →
             transitionCallHistory receiver details
             = Err (Error
                      "callHistoryDetails: Group calls shouldn't send NotAccepted")).
Proof.
  intros Htype Hstatus Hreceiver.
  unfold getProtoForCallHistory. rewrite Hstatus, Htype. simpl.
  destruct (Long_fromString (CallHistoryDetails.callId sender))
    as [long | error]; simpl; (split; [reflexivity |]);
    intros proto [= <-].
  split; [reflexivity |].
  unfold getCallEventForProto, normalizedOfProto. simpl.
  destruct (CallHistoryDetails.direction sender); simpl;
    eexists; (split; [reflexivity |]); intros Hsame;
    rewrite transitionCallHistory_unfold;
    (destruct receiver as [prior |];
     [ rewrite (proj2 (identityAssertions_Ok prior _) (Hsame _ eq_refl));
       destruct (Hreceiver _ eq_refl) as [Hdel Hacc]; simpl;
       unfold transitionGroupCallStatus;
       assert (Hdel' : Some (CallHistoryDetails.status prior)
                       ≠ Some GroupCallStatus.Deleted) by congruence;
       assert (Hacc' : Some (CallHistoryDetails.status prior)
                       ≠ Some GroupCallStatus.Accepted) by congruence;
       rewrite (bool_decide_eq_false_2 _ Hdel'),
         (bool_decide_eq_false_2 _ Hacc');
       reflexivity
     | reflexivity ]).
Qed.

Lemma synced_group_decline_is_rejected_witness :
  let proto :=
    Proto.mkCallEvent [] 7 Proto.GROUP_CALL Proto.INCOMING
      Proto.NOT_ACCEPTED 500 in
  Proto.event proto = Proto.NOT_ACCEPTED
  ∧ ∃ details,
      getCallEventForProto (normalizedOfProto "7" "group-1" 500 proto) "sync"
      = inr details
      ∧ ((∀ prior, Some exampleCall = Some prior → sameCall prior details) →
         transitionCallHistory (Some exampleCall) details
         = Err (Error
                  "callHistoryDetails: Group calls shouldn't send NotAccepted")).
Proof.
  intros proto.
  destruct (synced_group_decline_is_rejected (λ _, []) (λ _, [])
              (λ _, Ok 7) (λ n, n)
              (scenarioHistory "7" "group-1" (Some "ringer") CallMode.Group
                 CallType.Group CallDirection.Incoming
                 GroupCallStatus.Declined 500)
              "7" "group-1" 500 "sync" (Some exampleCall))
    as [_ Hproto].
  - reflexivity.
  - reflexivity.
  - intros prior [= <-]. split; discriminate.
  - apply Hproto. reflexivity.
Defined.

(** ** Local events of calls *)

(** X11.  [getLocalCallEventFromDirectCall] fails exactly for an Ended
    call without an ended reason, with the assertion error; it returns no
    event exactly for the Prering and Reconnecting states; and the events
    it returns are never Started, Declined or Delete. *)
Theorem direct_call_event_cases call :
  (is_ok (getLocalCallEventFromDirectCall call) = false
   ↔ Call.state call = CallState.Ended ∧ Call.endedReason call = None)
  ∧ (Call.state call = CallState.Ended → Call.endedReason call = None →
     getLocalCallEventFromDirectCall call
     = Err (AssertionError "Call ended without reason"))
  ∧ (getLocalCallEventFromDirectCall call = Ok None
     ↔ Call.state call = CallState.Prering
       ∨ Call.state call = CallState.Reconnecting)
  ∧ (∀ event,
       getLocalCallEventFromDirectCall call = Ok (Some event) →
       event ≠ LocalCallEvent.Started
       ∧ event ≠ LocalCallEvent.Declined
       ∧ event ≠ LocalCallEvent.Delete).
Proof.
  unfold getLocalCallEventFromDirectCall.
  destruct call as [[] [reason |]]; simpl; split_and!;
    try (split; intros H; first [discriminate H | tauto
                                | by destruct H as [H | H]
                                | by destruct H as [H H']]);
    try (intros; discriminate);
    try reflexivity;
    intros event [= <-]; try destruct reason; done.
Qed.

Lemma direct_call_event_cases_witness :
  getLocalCallEventFromDirectCall (Call.mk CallState.Ended None)
  = Err (AssertionError "Call ended without reason").
Proof.
  apply (proj1 (proj2 (direct_call_event_cases
                         (Call.mk CallState.Ended None))));
    reflexivity.
Defined.

Lemma endedReasonToEvent_cases reason :
  (reason = CallEndedReason.AcceptedOnAnotherDevice
   ∧ endedReasonToEvent reason = LocalCallEvent.Accepted)
  ∨ (reason ≠ CallEndedReason.AcceptedOnAnotherDevice
     ∧ (endedReasonToEvent reason = LocalCallEvent.RemoteHangup
        ∨ endedReasonToEvent reason = LocalCallEvent.Hangup
        ∨ endedReasonToEvent reason = LocalCallEvent.Missed)).
Proof. destruct reason; simpl; first [by left | right; split; auto]. Qed.

Lemma direct_hangup_or_missed_settles event status direction :
  event = LocalCallEvent.RemoteHangup
  ∨ event = LocalCallEvent.Hangup
  ∨ event = LocalCallEvent.Missed →
  ∃ next,
    transitionDirectCallStatus status (Local event) direction = Ok next
    ∧ next ≠ DirectCallStatus.Pending
    ∧ isStatusOfMode CallMode.Direct next = true
    ∧ (next = DirectCallStatus.Deleted
       ↔ status = Some DirectCallStatus.Deleted)
    ∧ (next = DirectCallStatus.Accepted →
       status = Some DirectCallStatus.Accepted).
Proof.
  intros [-> | [-> | ->]]; destruct status as [[]|], direction;
    vm_compute; eexists; (split; [reflexivity |]);
    split_and!; try done; split; done.
Qed.

(** X12.  An ended direct call is never left Pending: for every ended
    reason, the event [getLocalCallEventFromDirectCall] returns takes the
    direct machine, from any status, to Accepted, Missed, Declined or
    Deleted, and to Deleted only from Deleted.  Only the reason
    AcceptedOnAnotherDevice can turn a call that was not Accepted into an
    Accepted one. *)
Theorem ended_direct_call_is_settled reason status direction :
  ∃ event next,
    getLocalCallEventFromDirectCall (Call.mk CallState.Ended (Some reason))
    = Ok (Some event)
    ∧ transitionDirectCallStatus status (Local event) direction = Ok next
    ∧ next ≠ DirectCallStatus.Pending
    ∧ isStatusOfMode CallMode.Direct next = true
    ∧ (next = DirectCallStatus.Deleted
       ↔ status = Some DirectCallStatus.Deleted)
    ∧ (next = DirectCallStatus.Accepted →
       status = Some DirectCallStatus.Accepted
       ∨ reason = CallEndedReason.AcceptedOnAnotherDevice).
Proof.
  exists (endedReasonToEvent reason).
  destruct (endedReasonToEvent_cases reason) as [[-> ->] | [_ Hevent]].
  - destruct (decide (status = Some DirectCallStatus.Deleted)) as [-> | Hdel].
    + exists DirectCallStatus.Deleted. split_and!; done.
    + exists DirectCallStatus.Accepted. split; [reflexivity |].
      split.
      { unfold transitionDirectCallStatus.
        by rewrite (bool_decide_eq_false_2 _ Hdel). }
      split_and!; try done.
      all: try (split; [done | by intros [= ->]]).
      all: try by right.
  - destruct (direct_hangup_or_missed_settles _ status direction Hevent)
      as (next & Hnext & Hpending & Hmode & Hdeleted & Haccepted).
    exists next. split; [reflexivity |]. split_and!; try done.
    intros H. left. by apply Haccepted.
Qed.

Section JoinState.
Context (isMe : Conversation.t → bool).

(** X13.  [getLocalCallEventFromJoinState] fails with the assertion error,
    changing nothing, when the ringer resolves to no conversation.
    Otherwise it always returns an event and leaves the world alone: for
    a call rung by the local user, Started when not joined (or without a
    join state) and Ringing otherwise, so that from no prior record the
    call is recorded as GenericGroupCall or Ringing and never as Joined;
    for a call rung by someone else, Started when not joined and Accepted
    otherwise. *)
Theorem join_state_event_by_ringer joinState groupCallMeta w :
  let run := getLocalCallEventFromJoinState isMe joinState groupCallMeta w in
  let notJoined :=
    joinState = None ∨ joinState = Some GroupCallJoinState.NotJoined in
  match findConversation w (GroupCallMeta.ringerId groupCallMeta) with
  | None =>
      run = (Err (AssertionError
                    "getCallDirectionFromRingerId: Missing ringer conversation"),
             w)
  | Some ringer =>
      ∃ event,
        run = (Ok (Some event), w)
        ∧ if isMe ringer
          then (notJoined → event = LocalCallEvent.Started)
               ∧ (¬ notJoined → event = LocalCallEvent.Ringing)
               ∧ (transitionGroupCallStatus None (Local event)
                    CallDirection.Outgoing
                  = Ok GroupCallStatus.GenericGroupCall
                  ∨ transitionGroupCallStatus None (Local event)
                      CallDirection.Outgoing
                    = Ok GroupCallStatus.Ringing)
          else (notJoined → event = LocalCallEvent.Started)
               ∧ (¬ notJoined → event = LocalCallEvent.Accepted)
  end.
Proof.
  intros run notJoined. subst run notJoined.
  unfold getLocalCallEventFromJoinState, getCallDirectionFromRingerId.
  primitive. simpl.
  destruct (findConversation w (GroupCallMeta.ringerId groupCallMeta))
    as [ringer |]; [| reflexivity].
  destruct (isMe ringer), joinState as [[]|]; simpl;
    eexists; (split; [reflexivity |]); split_and!;
    try (intros [H | H]; done); try (intros H; exfalso; apply H; auto; fail);
    auto.
Qed.

End JoinState.

(** ** Reconciling an event *)

Section Reconciler.
Context (uuidToBytes Bytes_fromBase64 : string → list Byte.byte)
  (Long_fromString : string → result Z) (Long_fromNumber : Z → Z)
  (maxSeenStatus : SeenStatus.t → SeenStatus.t → SeenStatus.t)
  (guid : nat → string)
  (incrementSentMessageCount incrementMessageCount
     : Conversation.t → Conversation.t).

Lemma saveCallHistory_keeps_jobQueue callHistory conversationId counter ms q :
  preserves (λ w, jobQueue w = q)
    (saveCallHistory maxSeenStatus guid incrementSentMessageCount
       incrementMessageCount callHistory conversationId counter ms).
Proof. unfold saveCallHistory. preserves_steps. Qed.

Lemma saveCallHistory_keeps_ourAci callHistory conversationId counter ms aci :
  preserves (λ w, ourAci w = aci)
    (saveCallHistory maxSeenStatus guid incrementSentMessageCount
       incrementMessageCount callHistory conversationId counter ms).
Proof.
  unfold saveCallHistory. preserves_steps.
  all: intros w Hw; unfold getCheckedAci;
    destruct (ourAci w) eqn:Haci; simpl; congruence.
Qed.

Lemma updateLocalCallHistory_keeps_jobQueue callEvent counter ms q :
  preserves (λ w, jobQueue w = q)
    (updateLocalCallHistory maxSeenStatus guid incrementSentMessageCount
       incrementMessageCount callEvent counter ms).
Proof.
  unfold updateLocalCallHistory. preserves_steps.
  all: by apply saveCallHistory_keeps_jobQueue.
Qed.

Lemma updateLocalAdhocCallHistory_keeps_jobQueue callEvent q :
  preserves (λ w, jobQueue w = q) (updateLocalAdhocCallHistory callEvent).
Proof. unfold updateLocalAdhocCallHistory. preserves_steps. Qed.

(** X14.  A remote event is never echoed: [updateCallHistoryFromRemoteEvent]
    leaves the outbound job queue as it was, whatever the event and the
    world, and whether it returns or throws. *)
Theorem remote_event_is_never_echoed callEvent counter ms w :
  jobQueue
    (updateCallHistoryFromRemoteEvent maxSeenStatus guid
       incrementSentMessageCount incrementMessageCount callEvent
       counter ms w).2
  = jobQueue w.
Proof.
  enough (H : preserves (λ w', jobQueue w' = jobQueue w)
                (updateCallHistoryFromRemoteEvent maxSeenStatus guid
                   incrementSentMessageCount incrementMessageCount
                   callEvent counter ms))
    by (by apply H).
  unfold updateCallHistoryFromRemoteEvent. preserves_steps.
  all: first [ by apply updateLocalCallHistory_keeps_jobQueue
             | by apply updateLocalAdhocCallHistory_keeps_jobQueue ].
Qed.

(** X15.  When the transition fails, [updateLocalCallHistory] logs the
    error and returns null, [updateCallHistoryFromLocalEvent] returns, and
    neither writes anything: no record, no message, no sync job.  When
    the peer resolves to no conversation, both throw the assertion error
    at once. *)
Theorem failed_transition_writes_nothing callEvent counter ms w :
  let logged :=
    with_errorLog
      (λ l, (l ++ ["updateLocalCallHistory: Couldn't transition call history:"])
            %list) w in
  (findConversation w (CallEventDetails.peerId callEvent) = None →
   updateLocalCallHistory maxSeenStatus guid incrementSentMessageCount
     incrementMessageCount callEvent counter ms w
   = (Err (AssertionError "updateLocalCallHistory: Conversation not found"),
      w)
   ∧ updateCallHistoryFromLocalEvent uuidToBytes Bytes_fromBase64
       Long_fromString Long_fromNumber maxSeenStatus guid
       incrementSentMessageCount incrementMessageCount callEvent
       counter ms w
     = (Err (AssertionError "updateLocalCallHistory: Conversation not found"),
        w))
  ∧ (is_Some (findConversation w (CallEventDetails.peerId callEvent)) →
     is_ok (transitionCallHistory
              (callHistoryTable w !! (CallEventDetails.callId callEvent,
                                      CallEventDetails.peerId callEvent))
              callEvent) = false →
     updateLocalCallHistory maxSeenStatus guid incrementSentMessageCount
       incrementMessageCount callEvent counter ms w
     = (Ok None, logged)
     ∧ updateCallHistoryFromLocalEvent uuidToBytes Bytes_fromBase64
         Long_fromString Long_fromNumber maxSeenStatus guid
         incrementSentMessageCount incrementMessageCount callEvent
         counter ms w
       = (Ok tt, logged)).
Proof.
  intros logged. subst logged.
  unfold updateCallHistoryFromLocalEvent, updateLocalCallHistory.
  unfold ConversationController_get, Data_getCallHistory, log_error, throw,
    gets, modify.
  unfold mbind, mret, action_bind, action_ret.
  split.
  - intros ->. by split.
  - intros [conversation ->] Hfail.
    destruct (transitionCallHistory _ callEvent) as [next | error];
      [discriminate Hfail |].
    by split.
Qed.

End Reconciler.

Lemma failed_transition_writes_nothing_witness :
  updateCallHistoryFromLocalEvent (λ _, []) (λ _, []) (λ _, Ok 7) (λ n, n)
    (λ a _, a) (λ _, "guid") (λ c, c) (λ c, c) exampleNotAccepted None None
    examplePeerWorld
  = (Ok tt,
     with_errorLog
       (λ l, (l ++ ["updateLocalCallHistory: Couldn't transition call history:"])
             %list) examplePeerWorld).
Proof.
  destruct (failed_transition_writes_nothing (λ _, []) (λ _, [])
              (λ _, Ok 7) (λ n, n) (λ a _, a) (λ _, "guid") (λ c, c)
              (λ c, c) exampleNotAccepted None None examplePeerWorld)
    as [_ Hfound].
  apply Hfound.
  - by eexists.
  - reflexivity.
Defined.

Section LocalEvents.
Context (uuidToBytes Bytes_fromBase64 : string → list Byte.byte)
  (Long_fromString : string → result Z) (Long_fromNumber : Z → Z)
  (maxSeenStatus : SeenStatus.t → SeenStatus.t → SeenStatus.t)
  (guid : nat → string)
  (incrementSentMessageCount incrementMessageCount
     : Conversation.t → Conversation.t).

Lemma updateLocalCallHistory_success
    callEvent counter ms w conversation next :
  findConversation w (CallEventDetails.peerId callEvent)
  = Some conversation →
  transitionCallHistory
    (callHistoryTable w !! (CallEventDetails.callId callEvent,
                            CallEventDetails.peerId callEvent))
    callEvent = Ok next →
  is_Some (ourAci w)
  ∨ CallHistoryDetails.status next = CallStatusValue.Deleted →
  ∃ w',
    updateLocalCallHistory maxSeenStatus guid incrementSentMessageCount
      incrementMessageCount callEvent counter ms w
    = (Ok (Some next), w')
    ∧ callHistoryTable w'
      = <[(CallEventDetails.callId callEvent,
           CallEventDetails.peerId callEvent) := next]> (callHistoryTable w)
    ∧ jobQueue w' = jobQueue w
    ∧ ourAci w' = ourAci w.
Proof.
  intros Hconv Hnext Haci.
  pose proof (saveCallHistory_table maxSeenStatus guid
                incrementSentMessageCount incrementMessageCount next
                (Conversation.id conversation) counter ms w) as Htable.
  pose proof (saveCallHistory_result maxSeenStatus guid
                incrementSentMessageCount incrementMessageCount next
                (Conversation.id conversation) counter ms w Haci) as Hresult.
  pose proof (saveCallHistory_keeps_jobQueue maxSeenStatus guid
                incrementSentMessageCount incrementMessageCount next
                (Conversation.id conversation) counter ms (jobQueue w) w
                eq_refl) as Hqueue.
  pose proof (saveCallHistory_keeps_ourAci maxSeenStatus guid
                incrementSentMessageCount incrementMessageCount next
                (Conversation.id conversation) counter ms (ourAci w) w
                eq_refl) as Hkeep.
  unfold updateLocalCallHistory.
  unfold ConversationController_get, Data_getCallHistory, gets.
  unfold mbind at 1, action_bind at 1. rewrite Hconv.
  unfold mbind at 1, action_bind at 1. rewrite Hnext.
  unfold mbind, action_bind, mret, action_ret.
  destruct (saveCallHistory _ _ _ _ _ _ _ _ w) as [result w']. simpl in *.
  subst result. exists w'. split; [reflexivity |].
  apply transitionCallHistory_Ok_inv in Hnext as (_ & ? & ? & _ & _ & ->).
  simpl in Htable. done.
Qed.


(** X16.  When the peer resolves to a conversation, the transition
    succeeds and the local account is known (or the record is Deleted),
    [updateLocalCallHistory] returns the record [transitionCallHistory]
    computed from the stored one, and that record is what the table then
    holds for the event's (callId, peerId); no other key changes. *)
Theorem local_event_record_is_stored
    callEvent counter ms w conversation next :
  findConversation w (CallEventDetails.peerId callEvent)
  = Some conversation →
  transitionCallHistory
    (callHistoryTable w !! (CallEventDetails.callId callEvent,
                            CallEventDetails.peerId callEvent))
    callEvent = Ok next →
  is_Some (ourAci w)
  ∨ CallHistoryDetails.status next = CallStatusValue.Deleted →
  let run :=
    updateLocalCallHistory maxSeenStatus guid incrementSentMessageCount
      incrementMessageCount callEvent counter ms w in
  run.1 = Ok (Some next)
  ∧ callHistoryTable run.2 !! (CallEventDetails.callId callEvent,
                               CallEventDetails.peerId callEvent)
    = Some next
  ∧ ∀ key,
      key ≠ (CallEventDetails.callId callEvent,
             CallEventDetails.peerId callEvent) →
      callHistoryTable run.2 !! key = callHistoryTable w !! key.
Proof.
  intros Hconv Hnext Haci run. subst run.
  destruct (updateLocalCallHistory_success callEvent counter ms w
              conversation next Hconv Hnext Haci)
    as (w' & -> & Htable & _ & _).
  simpl. rewrite Htable. split; [reflexivity |]. split.
  - apply lookup_insert_eq.
  - intros key Hkey. by apply lookup_insert_ne.
Qed.


End LocalEvents.

Lemma local_event_record_is_stored_witness :
  let run :=
    updateLocalCallHistory (λ a _, a) (λ _, "guid") (λ c, c) (λ c, c)
      exampleHangup None None examplePeerWorld in
  run.1
  = Ok (Some (scenarioHistory "7" "group-1" (Some "ringer") CallMode.Group
                CallType.Group CallDirection.Incoming
                GroupCallStatus.Declined 600))
  ∧ callHistoryTable run.2 !! ("7", "group-1")
    = Some (scenarioHistory "7" "group-1" (Some "ringer") CallMode.Group
              CallType.Group CallDirection.Incoming
              GroupCallStatus.Declined 600)
  ∧ ∀ key,
      key ≠ ("7", "group-1") →
      callHistoryTable run.2 !! key
      = callHistoryTable examplePeerWorld !! key.
Proof.
  apply (local_event_record_is_stored (λ a _, a) (λ _, "guid") (λ c, c)
           (λ c, c) exampleHangup None None examplePeerWorld
           exampleConversation
           (scenarioHistory "7" "group-1" (Some "ringer") CallMode.Group
              CallType.Group CallDirection.Incoming
              GroupCallStatus.Declined 600)).
  - reflexivity.
  - reflexivity.
  - left. by eexists.
Defined.


(** ** Adhoc calls *)


Lemma updateLocalAdhocCallHistory_run callEvent w :
  updateLocalAdhocCallHistory callEvent w
  = let prevCallHistory :=
      callHistoryTable w !! (CallEventDetails.callId callEvent,
                             CallEventDetails.peerId callEvent) in
    match transitionCallHistory prevCallHistory callEvent with
    | Err _ =>
        (Ok None,
         with_errorLog
           (λ l, (l ++ ["updateAdhocCallHistory: Couldn't transition call history:"])
                 %list) w)
    | Ok next =>
        if isStatusOfMode CallMode.Adhoc (CallHistoryDetails.status next)
        then
          let saved :=
            if bool_decide (prevCallHistory = Some next) then w
            else with_callHistoryTable
                   (<[(CallHistoryDetails.callId next,
                       CallHistoryDetails.peerId next) := next]>) w in
          (Ok (Some next),
           if bool_decide (CallHistoryDetails.status next
                           = AdhocCallStatus.Deleted)
           then with_callHistoryRedux
                  (delete (CallHistoryDetails.callId next)) saved
           else with_callHistoryRedux
                  (<[CallHistoryDetails.callId next := next]>) saved)
        else
          (Err (AssertionError
                  "updateAdhocCallHistory: callHistory must have adhoc status"),
           w)
    end.
Proof.
  unfold updateLocalAdhocCallHistory, isStatusOfMode.
  unfold Data_getCallHistory, gets.
  unfold mbind at 1, action_bind at 1. cbv zeta.
  destruct (transitionCallHistory _ callEvent) as [next | error];
    [| reflexivity].
  unfold strictAssert, lift.
  destruct (_ || _); [| reflexivity].
  primitive. simpl.
  by repeat case_bool_decide.
Qed.



(** X19.  [updateLocalAdhocCallHistory] accepts adhoc statuses only: when
    the transition yields a record whose status is none of Pending,
    JoinedAdhoc and Deleted (as a direct or group event can), it throws
    the assertion error before anything is written. *)
Theorem adhoc_update_rejects_other_statuses callEvent w next :
  transitionCallHistory
    (callHistoryTable w !! (CallEventDetails.callId callEvent,
                            CallEventDetails.peerId callEvent))
    callEvent = Ok next →
  isStatusOfMode CallMode.Adhoc (CallHistoryDetails.status next) = false →
  updateLocalAdhocCallHistory callEvent w
  = (Err (AssertionError
            "updateAdhocCallHistory: callHistory must have adhoc status"),
     w).
Proof.
  intros Hnext Hstatus.
  rewrite updateLocalAdhocCallHistory_run. cbv zeta.
  by rewrite Hnext, Hstatus.
Qed.

Lemma adhoc_update_rejects_other_statuses_witness :
  updateLocalAdhocCallHistory exampleHangup examplePeerWorld
  = (Err (AssertionError
            "updateAdhocCallHistory: callHistory must have adhoc status"),
     examplePeerWorld).
Proof.
  apply (adhoc_update_rejects_other_statuses exampleHangup examplePeerWorld
           (scenarioHistory "7" "group-1" (Some "ringer") CallMode.Group
              CallType.Group CallDirection.Incoming
              GroupCallStatus.Declined 600));
    reflexivity.
Defined.

(** ** Sending and saving *)

(** X20.  [updateRemoteCallHistory] never throws.
    [getProtoForCallHistory] succeeds exactly when the status is one
    [shouldSyncStatus] lets through and the record's callId is read as a
    [Long], so its assertion on the status is never the cause of a
    failure.  A record that is not syncable leaves the world alone; a
    syncable one enqueues nothing, and one error is logged, when the
    local account is unknown or the callId is not read. *)
Theorem sync_never_throws
    uuidToBytes Bytes_fromBase64 Long_fromString Long_fromNumber
    callHistory w :
  let run :=
    updateRemoteCallHistory uuidToBytes Bytes_fromBase64 Long_fromString
      Long_fromNumber callHistory w in
  let syncable := shouldSyncStatus (CallHistoryDetails.status callHistory) in
  let readable :=
    is_ok (Long_fromString (CallHistoryDetails.callId callHistory)) in
  run.1 = Ok tt
  ∧ is_ok (getProtoForCallHistory uuidToBytes Bytes_fromBase64
             Long_fromString Long_fromNumber callHistory)
    = syncable && readable
  ∧ (syncable = false → run = (Ok tt, w))
  ∧ (syncable = true →
     ourAci w = None ∨ readable = false →
     run
     = (Ok tt,
        with_errorLog
          (λ l, (l ++ ["updateRemoteCallHistory: Failed to queue sync message:"])
                %list) w)).
Proof.
  intros run syncable readable. subst run syncable readable.
  split_and!.
  - unfold updateRemoteCallHistory, getProtoForCallHistory, shouldSyncStatus.
    unfold tryCatch. primitive.
    destruct (statusToProto (CallHistoryDetails.status callHistory)); simpl;
      [| reflexivity].
    destruct (ourAci w); simpl; [| reflexivity].
    by destruct (Long_fromString _).
  - unfold getProtoForCallHistory, shouldSyncStatus.
    destruct (statusToProto (CallHistoryDetails.status callHistory)); simpl;
      [| reflexivity].
    by destruct (Long_fromString _).
  - apply updateRemoteCallHistory_not_synced.
  - apply updateRemoteCallHistory_failed.
Qed.

Lemma sync_never_throws_witness :
  updateRemoteCallHistory (λ _, []) (λ _, [])
    (λ _, Err (Error "interior hyphen")) (λ n, n)
    (scenarioHistory "7-7" "alice" None CallMode.Direct CallType.Audio
       CallDirection.Incoming DirectCallStatus.Accepted 100)
    (mkWorld ∅ ∅ ∅ ∅ ∅ 0 0 (Some "our-aci") [] [])
  = (Ok tt,
     mkWorld ∅ ∅ ∅ ∅ ∅ 0 0 (Some "our-aci") []
       ["updateRemoteCallHistory: Failed to queue sync message:"]).
Proof.
  apply (proj2 (proj2 (proj2 (sync_never_throws (λ _, []) (λ _, [])
           (λ _, Err (Error "interior hyphen")) (λ n, n)
           (scenarioHistory "7-7" "alice" None CallMode.Direct CallType.Audio
              CallDirection.Incoming DirectCallStatus.Accepted 100)
           (mkWorld ∅ ∅ ∅ ∅ ∅ 0 0 (Some "our-aci") [] []))))).
  - reflexivity.
  - right. reflexivity.
Defined.

Section Saving.
Context (maxSeenStatus : SeenStatus.t → SeenStatus.t → SeenStatus.t)
  (guid : nat → string)
  (incrementSentMessageCount incrementMessageCount
     : Conversation.t → Conversation.t).

(** X21.  Saving a Deleted record keeps it in the table as a tombstone,
    removes the call from the UI projection and removes the call-history
    message of the conversation if there is one; it needs no local
    account, and touches neither the conversations nor the queue. *)
Theorem deleted_record_is_a_tombstone
    callHistory conversationId counter ms w :
  CallHistoryDetails.status callHistory = CallStatusValue.Deleted →
  let run :=
    saveCallHistory maxSeenStatus guid incrementSentMessageCount
      incrementMessageCount callHistory conversationId counter ms w in
  let callId := CallHistoryDetails.callId callHistory in
  run.1 = Ok callHistory
  ∧ callHistoryTable run.2 !! (callId, CallHistoryDetails.peerId callHistory)
    = Some callHistory
  ∧ callHistoryRedux run.2 !! callId = None
  ∧ (∀ message,
       messages w !! (conversationId, callId) = Some message →
       (Message.conversationId message, Message.callId message)
       = (conversationId, callId) →
       messages run.2 !! (conversationId, callId) = None)
  ∧ (messages w !! (conversationId, callId) = None →
     messages run.2 = messages w)
  ∧ conversations run.2 = conversations w
  ∧ jobQueue run.2 = jobQueue w.
Proof.
  intros Hdeleted run callId. subst run callId.
  unfold saveCallHistory. rewrite Hdeleted. primitive. simpl.
  destruct (messages w !! (conversationId,
                           CallHistoryDetails.callId callHistory))
    as [message |] eqn:Hmessage; simpl;
    rewrite ?lookup_insert_eq, ?lookup_delete_eq; split_and!; try done.
  intros ? [= <-] ->. by rewrite lookup_delete_eq.
Qed.

(** X22.  Saving a record that is not Deleted, with the local account
    known, returns it, shows it in the UI projection, and leaves one
    call-history message for the call in the conversation: an existing
    message keeps its id and all its timestamps; a new one gets a fresh
    id, the record's timestamp, and the received-at counter and time it
    was given, else the next message counter and the record's
    timestamp. *)
Theorem saved_record_has_one_message
    callHistory conversationId counter ms w :
  CallHistoryDetails.status callHistory ≠ CallStatusValue.Deleted →
  is_Some (ourAci w) →
  let run :=
    saveCallHistory maxSeenStatus guid incrementSentMessageCount
      incrementMessageCount callHistory conversationId counter ms w in
  let callId := CallHistoryDetails.callId callHistory in
  let timestamp := CallHistoryDetails.timestamp callHistory in
  run.1 = Ok callHistory
  ∧ callHistoryRedux run.2 !! callId = Some callHistory
  ∧ ∃ message,
      messages run.2 !! (conversationId, callId) = Some message
      ∧ Message.conversationId message = conversationId
      ∧ Message.callId message = callId
      ∧ match messages w !! (conversationId, callId) with
        | Some previous =>
            Message.id message = Message.id previous
            ∧ Message.timestamp message = Message.timestamp previous
            ∧ Message.sent_at message = Message.sent_at previous
            ∧ Message.received_at message = Message.received_at previous
            ∧ Message.received_at_ms message
              = Message.received_at_ms previous
            ∧ guidCounter run.2 = guidCounter w
            ∧ messageCounter run.2 = messageCounter w
        | None =>
            Message.id message = guid (guidCounter w)
            ∧ guidCounter run.2 = S (guidCounter w)
            ∧ Message.timestamp message = timestamp
            ∧ Message.sent_at message = timestamp
            ∧ Message.received_at message
              = default (messageCounter w) counter
            ∧ Message.received_at_ms message = default timestamp ms
        end.
Proof.
  intros Hdeleted [aci Haci] run callId timestamp.
  subst run callId timestamp.
  unfold saveCallHistory.
  rewrite (bool_decide_eq_false_2 _ Hdeleted : bool_decide
             (CallHistoryDetails.status callHistory
              = DirectCallStatus.Deleted) = false).
  rewrite (bool_decide_eq_false_2 _ Hdeleted : bool_decide
             (CallHistoryDetails.status callHistory
              = GroupCallStatus.Deleted) = false).
  primitive. simpl.
  destruct (messages w !! (conversationId,
                           CallHistoryDetails.callId callHistory))
    as [previous |] eqn:Hmessage; simpl;
    [| destruct counter as [counter |]; simpl];
    rewrite Haci; simpl;
    destruct (bool_decide (CallHistoryDetails.direction callHistory
                           = CallDirection.Outgoing)); simpl;
    rewrite ?lookup_insert_eq; split_and!; try done;
    eexists; (split; [reflexivity |]); by destruct ms.
Qed.


End Saving.

Lemma deleted_record_is_a_tombstone_witness :
  let run :=
    saveCallHistory (λ a _, a) (λ _, "guid") (λ c, c) (λ c, c)
      (CallHistoryDetails.mk "7" "group-1" (Some "ringer") CallMode.Group
         CallType.Group CallDirection.Incoming 500 GroupCallStatus.Deleted)
      "conversation-1" None None examplePeerWorld in
  callHistoryTable run.2 !! ("7", "group-1")
  = Some (CallHistoryDetails.mk "7" "group-1" (Some "ringer") CallMode.Group
            CallType.Group CallDirection.Incoming 500
            GroupCallStatus.Deleted)
  ∧ callHistoryRedux run.2 !! "7" = None.
Proof.
  destruct (deleted_record_is_a_tombstone (λ a _, a) (λ _, "guid")
              (λ c, c) (λ c, c)
              (CallHistoryDetails.mk "7" "group-1" (Some "ringer")
                 CallMode.Group CallType.Group CallDirection.Incoming 500
                 GroupCallStatus.Deleted)
              "conversation-1" None None examplePeerWorld eq_refl)
    as (_ & Htable & Hredux & _).
  split; [exact Htable | exact Hredux].
Defined.

Lemma saved_record_has_one_message_witness :
  let run :=
    saveCallHistory (λ a _, a) (λ _, "guid") (λ c, c) (λ c, c) exampleCall
      "conversation-1" None None examplePeerWorld in
  run.1 = Ok exampleCall
  ∧ callHistoryRedux run.2 !! "7" = Some exampleCall.
Proof.
  destruct (saved_record_has_one_message (λ a _, a) (λ _, "guid")
              (λ c, c) (λ c, c) exampleCall "conversation-1" None None
              examplePeerWorld)
    as (Hresult & Hredux & _).
  - discriminate.
  - by eexists.
  - split; [exact Hresult | exact Hredux].
Defined.


(** X24.  The peer id bytes of a record are the base64 decoding of its
    peerId for an adhoc call, and otherwise its uuid bytes, with the
    base64 decoding as fallback when those are empty; so the result is
    empty only when the base64 decoding is. *)
Theorem peer_id_bytes_fallback uuidToBytes Bytes_fromBase64 callHistory :
  let bytes := getBytesForPeerId uuidToBytes Bytes_fromBase64 callHistory in
  let peerId := CallHistoryDetails.peerId callHistory in
  (CallHistoryDetails.mode callHistory = CallMode.Adhoc →
   bytes = Bytes_fromBase64 peerId)
  ∧ (CallHistoryDetails.mode callHistory ≠ CallMode.Adhoc →
     bytes = if bool_decide (uuidToBytes peerId = [])
             then Bytes_fromBase64 peerId else uuidToBytes peerId)
  ∧ (bytes = [] → Bytes_fromBase64 peerId = []).
Proof.
  intros bytes peerId. subst bytes peerId. unfold getBytesForPeerId.
  split_and!.
  - intros ->. simpl. by case_bool_decide.
  - intros Hmode. rewrite (bool_decide_eq_false_2 _ Hmode).
    destruct (uuidToBytes _); by simpl.
  - repeat case_bool_decide; try done.
    all: intros Hnil; rewrite Hnil in *; done.
Qed.

Lemma peer_id_bytes_fallback_witness :
  getBytesForPeerId (λ _, []) (λ _, ["x"%byte]) exampleCall = ["x"%byte].
Proof.
  destruct (peer_id_bytes_fallback (λ _, []) (λ _, ["x"%byte]) exampleCall)
    as (_ & Hother & _).
  apply Hother. discriminate.
Defined.

(** X25.  A Declined record keeps its timestamp under every event but a
    remote NotAccepted, which moves it to the later of the two; in
    particular an Accepted event, local or remote, turns a Declined
    direct call into an Accepted one without changing its timestamp. *)
Theorem declined_timestamp_policy callHistory callEvent :
  CallHistoryDetails.status callHistory = CallStatusValue.Declined →
  transitionTimestamp (Some callHistory) callEvent
  = Ok (if bool_decide (CallEventDetails.event callEvent
                        = Remote RemoteCallEvent.NotAccepted)
        then Z.max (CallEventDetails.timestamp callEvent)
                   (CallHistoryDetails.timestamp callHistory)
        else CallHistoryDetails.timestamp callHistory)
  ∧ (sameCall callHistory callEvent →
     CallEventDetails.mode callEvent = CallMode.Direct →
     isAcceptedEvent (CallEventDetails.event callEvent) = true →
     ∃ next,
       transitionCallHistory (Some callHistory) callEvent = Ok next
       ∧ CallHistoryDetails.status next = DirectCallStatus.Accepted
       ∧ CallHistoryDetails.timestamp next
         = CallHistoryDetails.timestamp callHistory).
Proof.
  intros Hdeclined.
  assert (Hts : transitionTimestamp (Some callHistory) callEvent
                = Ok (if bool_decide (CallEventDetails.event callEvent
                                      = Remote RemoteCallEvent.NotAccepted)
                      then Z.max (CallEventDetails.timestamp callEvent)
                             (CallHistoryDetails.timestamp callHistory)
                      else CallHistoryDetails.timestamp callHistory)).
  { unfold transitionTimestamp. rewrite Hdeclined. simpl.
    by case_bool_decide. }
  split; [exact Hts |].
  intros Hsame Hmode Haccepted.
  eexists. split.
  - apply transitionCallHistory_Ok_intro.
    + by apply identityAssertions_Ok.
    + rewrite Hmode. simpl. rewrite Hdeclined.
      apply (transitionCallStatus_accepted CallMode.Direct); try done.
      * by destruct (CallEventDetails.event callEvent) as [[]|[]].
      * by left.
    + exact Hts.
  - simpl. split; [reflexivity |].
    destruct (CallEventDetails.event callEvent) as [[]|[]];
      try discriminate Haccepted; reflexivity.
Qed.

Lemma declined_timestamp_policy_witness :
  ∃ next,
    transitionCallHistory
      (Some (scenarioHistory "7" "alice" None CallMode.Direct CallType.Audio
               CallDirection.Incoming DirectCallStatus.Declined 100))
      (scenarioEvent "7" "alice" "sync" None CallMode.Direct CallType.Audio
         CallDirection.Incoming (Remote RemoteCallEvent.Accepted) 900)
    = Ok next
    ∧ CallHistoryDetails.status next = DirectCallStatus.Accepted
    ∧ CallHistoryDetails.timestamp next = 100.
Proof.
  destruct (declined_timestamp_policy
              (scenarioHistory "7" "alice" None CallMode.Direct
                 CallType.Audio CallDirection.Incoming
                 DirectCallStatus.Declined 100)
              (scenarioEvent "7" "alice" "sync" None CallMode.Direct
                 CallType.Audio CallDirection.Incoming
                 (Remote RemoteCallEvent.Accepted) 900)
              eq_refl) as [_ Haccepted].
  apply Haccepted.
  - unfold sameCall. simpl. tauto.
  - reflexivity.
  - reflexivity.
Defined.



Lemma ended_direct_call_is_settled_witness :
  ∃ event next,
    getLocalCallEventFromDirectCall
      (Call.mk CallState.Ended (Some CallEndedReason.Declined))
    = Ok (Some event)
    ∧ transitionDirectCallStatus (Some DirectCallStatus.Pending)
        (Local event) CallDirection.Incoming = Ok next
    ∧ next ≠ DirectCallStatus.Pending
    ∧ isStatusOfMode CallMode.Direct next = true
    ∧ (next = DirectCallStatus.Deleted
       ↔ Some DirectCallStatus.Pending = Some DirectCallStatus.Deleted)
    ∧ (next = DirectCallStatus.Accepted →
       Some DirectCallStatus.Pending = Some DirectCallStatus.Accepted
       ∨ CallEndedReason.Declined = CallEndedReason.AcceptedOnAnotherDevice).
Proof.
  exact (ended_direct_call_is_settled CallEndedReason.Declined
           (Some DirectCallStatus.Pending) CallDirection.Incoming).
Defined.

Lemma join_state_event_by_ringer_witness :
  ∃ event,
    getLocalCallEventFromJoinState (λ _, true)
      (Some GroupCallJoinState.Joined) (GroupCallMeta.mk "7" "group-1")
      examplePeerWorld
    = (Ok (Some event), examplePeerWorld)
    ∧ event = LocalCallEvent.Ringing.
Proof.
  destruct (join_state_event_by_ringer (λ _, true)
              (Some GroupCallJoinState.Joined)
              (GroupCallMeta.mk "7" "group-1") examplePeerWorld)
    as (event & Hrun & _ & Hjoined & _).
  exists event. split; [exact Hrun |].
  apply Hjoined. intros [H | H]; discriminate H.
Defined.

(** X27.  A ring update never makes the group machine fail, whatever the
    prior group status and the direction; it deletes nothing (the result
    is Deleted only from Deleted) and never leaves the record Declined or
    GenericGroupCall. *)
Theorem ring_update_never_fails update status direction :
  (∀ previous,
     status = Some previous → isStatusOfMode CallMode.Group previous = true) →
  ∃ event next,
    getLocalCallEventFromRingUpdate update = Some event
    ∧ transitionGroupCallStatus status (Local event) direction = Ok next
    ∧ (next = GroupCallStatus.Deleted
       ↔ status = Some GroupCallStatus.Deleted)
    ∧ next ≠ GroupCallStatus.Declined
    ∧ next ≠ GroupCallStatus.GenericGroupCall.
Proof.
  intros Hstatus. exists (ringUpdateToEvent update).
  destruct status as [previous |];
    [specialize (Hstatus previous eq_refl) |].
  - destruct update, previous, direction; try discriminate Hstatus;
      vm_compute; eexists; (split; [reflexivity |]);
      (split; [reflexivity |]); split_and!; try done; split; done.
  - destruct update, direction;
      vm_compute; eexists; (split; [reflexivity |]);
      (split; [reflexivity |]); split_and!; try done; split; done.
Qed.

Lemma ring_update_never_fails_witness :
  ∃ event next,
    getLocalCallEventFromRingUpdate RingUpdate.CancelledByRinger = Some event
    ∧ transitionGroupCallStatus (Some GroupCallStatus.Ringing) (Local event)
        CallDirection.Incoming = Ok next
    ∧ (next = GroupCallStatus.Deleted
       ↔ Some GroupCallStatus.Ringing = Some GroupCallStatus.Deleted)
    ∧ next ≠ GroupCallStatus.Declined
    ∧ next ≠ GroupCallStatus.GenericGroupCall.
Proof.
  apply (ring_update_never_fails RingUpdate.CancelledByRinger
           (Some GroupCallStatus.Ringing) CallDirection.Incoming).
  intros previous [= <-]. reflexivity.
Defined.
